(** * Zero Trust devices to internal DNS: a model of [src/index.ts]

    The worker lists the Zero Trust devices of an account, asks for the WARP
    address of each one, and creates or updates one A record per device in a
    DNS zone.  This file embeds the worker's functions and proves (or
    refutes, on concrete inputs) the properties its specification states.

    Conventions of the embedding:
    - a JavaScript string is a [string], the bytes of its UTF-8 form: the
      dot and the digits, which the worker looks for, are single bytes
      there, and equality and concatenation are those of the strings;
    - [String.prototype.toLowerCase], which follows the case tables of the
      runtime, is not written out: it is a function that the surroundings
      of a cycle provide;
    - a JavaScript object used as a dictionary ([Devices], [Records]) is an
      association list kept in the order in which [Object.values],
      [Object.entries] and [for ... in] enumerate it: array-index keys first,
      by value, then the other keys in insertion order (keys are assumed to
      differ from [__proto__]);
    - a rejected promise or a thrown exception is the result [Throw];
    - calls to the Cloudflare client and to [fetch] are events of a trace;
      [console.log] output is not part of the trace: the one line that
      reports on a device (index.ts, 201) is [console_line]. *)

From Stdlib Require Import String Ascii List Bool NArith ZArith Lia.
From Stdlib Require Import DecimalString DecimalN.
Import ListNotations.
Local Open Scope string_scope.
Local Open Scope list_scope.

(** ** JavaScript strings and numbers *)

Module JS.

(** [str.split(".")]: the pieces between the dots; one piece, the empty
  string, for the empty string. *)
Fixpoint split_dot (s : string) : list string :=
match s with
| EmptyString => [EmptyString]
| String c r =>
    if Ascii.eqb c "."
    then EmptyString :: split_dot r
    else match split_dot r with
         | h :: t => String c h :: t
         | [] => [String c EmptyString]
         end
end.

(** [parts.join(".")]. *)
Fixpoint join_dot (l : list string) : string :=
match l with
| [] => EmptyString
| [x] => x
| x :: r => x ++ String "." (join_dot r)
end.

(** The character class [\d] of a regular expression without the unicode
  flag: the ten ASCII digits. *)
Definition is_digit (c : ascii) : bool :=
(48 <=? nat_of_ascii c)%nat && (nat_of_ascii c <=? 57)%nat.

Fixpoint all_digits (s : string) : bool :=
match s with
| EmptyString => true
| String c r => is_digit c && all_digits r
end.

(** [/^\d+$/.test(part)]: one digit or more and nothing else. *)
Definition test_digits (part : string) : bool :=
match part with
| EmptyString => false
| _ => all_digits part
end.

Fixpoint Number_acc (acc : N) (s : string) : N :=
match s with
| EmptyString => acc
| String c r => Number_acc (10 * acc + (N_of_ascii c - 48)) r
end.

(** [Number(part)] for a string of digits, as the exact natural number it
  denotes.  The source holds it in a double; rounding is monotone and
  exact on integers below 2^53, so the comparisons with 0 and 255 and the
  rendering of a value in that range are those of the exact number. *)
Definition Number (part : string) : N := Number_acc 0 part.

(** [String(num)] for a natural number: its decimal numeral, no sign, no
  leading zero. *)
Definition String_of (num : N) : string :=
NilZero.string_of_uint (N.to_uint num).

(** What [String.prototype.toLowerCase] does to a string of ASCII
    characters: the letters A to Z become a to z. On other strings the
    result depends on the case tables of the runtime, so the worker's
    functions take the lowercasing from their surroundings ([toLowerCase]
    of [World]); this one is the runtime of the examples, whose names are
    ASCII. *)
Definition lower_char (c : ascii) : ascii :=
let n := nat_of_ascii c in
if (65 <=? n)%nat && (n <=? 90)%nat then ascii_of_nat (n + 32) else c.

Fixpoint lower_ascii (s : string) : string :=
match s with
| EmptyString => EmptyString
| String c r => String (lower_char c) (lower_ascii r)
end.

End JS.

(** ** The address check *)

(** [isIPv4] (index.ts, 205-214). *)
Definition isIPv4 (str : string) : bool :=
  let parts := JS.split_dot str in
  if negb (length parts =? 4)%nat then false
  else
    forallb (fun part =>
               if negb (JS.test_digits part) then false
               else
                 let num := JS.Number part in
                 (0 <=? num)%N && (num <=? 255)%N
                 && String.eqb (JS.String_of num) part)
            parts.

(** ** JavaScript objects used as dictionaries *)

Module Obj.
Section Dict.
Context {V : Type}.

Definition t := list (string * V).

(** An array index: the canonical numeral of an integer below 2^32 - 1.
    Such keys are enumerated first, in increasing order. *)
Definition array_index (k : string) : option N :=
  if JS.test_digits k
     && String.eqb (JS.String_of (JS.Number k)) k
     && (JS.Number k <? 4294967295)%N
  then Some (JS.Number k) else None.

Definition has (k : string) (o : t) : bool :=
  existsb (fun e => String.eqb (fst e) k) o.

(** Assignment to a key the object has: the value changes, the place in
    the enumeration does not. *)
Fixpoint replace (k : string) (v : V) (o : t) : t :=
  match o with
  | [] => []
  | (k', v') :: r =>
      if String.eqb k' k then (k, v) :: r else (k', v') :: replace k v r
  end.

(** A new array-index key goes before the first key that is not a smaller
    array index. *)
Fixpoint insert_index (i : N) (k : string) (v : V) (o : t) : t :=
  match o with
  | [] => [(k, v)]
  | (k', v') :: r =>
      match array_index k' with
      | Some j =>
          if (j <? i)%N then (k', v') :: insert_index i k v r
          else (k, v) :: o
      | None => (k, v) :: o
      end
  end.

(** A new key of another form goes last. *)
Definition add (k : string) (v : V) (o : t) : t :=
  match array_index k with
  | Some i => insert_index i k v o
  | None => o ++ [(k, v)]
  end.

(** [o[k] = v]. *)
Definition set (k : string) (v : V) (o : t) : t :=
  if has k o then replace k v o else add k v o.

Definition keys (o : t) : list string := map fst o.
Definition values (o : t) : list V := map snd o.
Definition entries (o : t) : list (string * V) := o.

(** [o[k]] for reading. *)
Definition get (k : string) (o : t) : option V :=
  match find (fun e => String.eqb (fst e) k) o with
  | Some e => Some (snd e)
  | None => None
  end.
End Dict.
Arguments t : clear implicits.
End Obj.

(** ** Values read out of a response *)

(** What [JSON.parse] builds. *)
#[warnings="-register-all"] Inductive json : Type :=
| JNull
| JBool (b : bool)
| JNum (lexeme : string)
| JStr (s : string)
| JArr (items : list json)
| JObj (members : list (string * json)).

(** A JavaScript value as far as the worker meets one: [undefined] or a
    JSON value ([null] is [Val JNull]). *)
Inductive jsval : Type :=
| Undefined
| Val (j : json).

(** A computation that returns or throws. *)
Inductive result (A : Type) : Type :=
| Ok (a : A)
| Throw.
Arguments Ok {A} a.
Arguments Throw {A}.

Definition bindR {A B : Type} (r : result A) (f : A -> result B) : result B :=
  match r with
  | Ok a => f a
  | Throw => Throw
  end.

Notation "x <-? c ;; k" := (bindR c (fun x => k))
  (at level 61, c at next level, right associativity).

(** [v.k] for the property names the worker reads ([success], [result],
    [metadata], [ipv4]): a TypeError on [undefined] and [null], the member
    of an object when it has one, [undefined] otherwise (booleans, numbers,
    strings and arrays have no property of these names). *)
Definition get_prop (v : jsval) (k : string) : result jsval :=
  match v with
  | Undefined => Throw
  | Val JNull => Throw
  | Val (JObj members) =>
      Ok (match find (fun m => String.eqb (fst m) k) members with
          | Some m => Val (snd m)
          | None => Undefined
          end)
  | Val _ => Ok Undefined
  end.

(** [v === true]. *)
Definition is_true (v : jsval) : bool :=
  match v with
  | Val (JBool true) => true
  | _ => false
  end.

(** [v === null]. *)
Definition is_null (v : jsval) : bool :=
  match v with
  | Val JNull => true
  | _ => false
  end.

(** [v ?? d]. *)
Definition nullish_or (v d : jsval) : jsval :=
  match v with
  | Undefined => d
  | Val JNull => d
  | _ => v
  end.

(** ** Dates *)

(** A [Date]: a time value in milliseconds, or the invalid date that
    [new Date(s)] gives for a string it cannot parse (time value NaN). *)
Inductive Date : Type :=
| Invalid_Date
| Time (ms : Z).

(** [a < b] on dates compares the time values; a comparison with NaN is
    false. *)
Definition Date_lt (a b : Date) : bool :=
  match a, b with
  | Time x, Time y => (x <? y)%Z
  | _, _ => false
  end.

(** ** The worker's types (index.ts, 16-44) *)

Record Env : Type := {
  API_TOKEN : option string;
  ACCOUNT_ID : option string;
  ZONE_ID : option string
}.

Record Device : Type := {
  d_name : string;
  d_updated : Date;
  d_ip : jsval
}.

Definition Devices := Obj.t Device.

Record DnsRecord : Type := {
  r_name : string;
  r_content : string
}.

Definition Records := Obj.t DnsRecord.

(** ** What the services send *)

(** A device as the directory lists it; [updated_at] is held as the date
    [new Date(device.updated_at)] evaluates to. *)
Record DeviceObs : Type := {
  obs_id : string;
  obs_name : string;
  obs_updated_at : Date
}.

(** An A record as the DNS service lists it; [content] may be missing. *)
Record ApiRecord : Type := {
  a_id : string;
  a_name : string;
  a_content : option string
}.

(** A response of [fetch]: the status and what [response.json()] gives. *)
Record Response : Type := {
  status : N;
  json_body : result json
}.

(** The body of a create or update call. *)
Record Params : Type := {
  p_name : string;
  p_type : string;
  p_zone_id : string;
  p_content : string;
  p_ttl : Z
}.

(** The calls that leave the worker. *)
Inductive event : Type :=
| ZonesGet (zone_id : string)
| DevicesList (account_id : string)
| Fetch (url authorization : string)
| RecordsList (zone_id type_ : string)
| RecordsCreate (p : Params)
| RecordsUpdate (id : string) (p : Params).

Definition is_mutation (e : event) : bool :=
  match e with
  | RecordsCreate _ | RecordsUpdate _ _ => true
  | _ => false
  end.

Definition is_create (e : event) : bool :=
  match e with
  | RecordsCreate _ => true
  | _ => false
  end.

Definition is_update (e : event) : bool :=
  match e with
  | RecordsUpdate _ _ => true
  | _ => false
  end.

(** The A records of the worker's zone, in the order the service lists
    them. *)
Definition Store := list ApiRecord.

(** The surroundings of one cycle: the answers of the read calls, which
    calls are rejected, the identifier the DNS service gives a new record,
    and [String.prototype.toLowerCase] as the runtime has it. *)
Record World : Type := {
  toLowerCase : string -> string;
  zones_get : string -> result string;
  devices_list : string -> result (list DeviceObs);
  fetch : string -> string -> result Response;
  rejects : event -> bool;
  new_id : Store -> Params -> string
}.

(** ** Computations of the worker

    An [async] function is a function of the record store that returns or
    throws, leaves a store, and lists the calls it made. *)

Definition M (A : Type) : Type := Store -> result A * Store * list event.

Definition ret {A : Type} (a : A) : M A := fun s => (Ok a, s, []).

Definition throw {A : Type} : M A := fun s => (Throw, s, []).

Definition bind {A B : Type} (m : M A) (f : A -> M B) : M B :=
  fun s =>
    match m s with
    | (Ok a, s1, t1) =>
        match f a s1 with
        | (r, s2, t2) => (r, s2, t1 ++ t2)
        end
    | (Throw, s1, t1) => (Throw, s1, t1)
    end.

Notation "x <- c ;; k" := (bind c (fun x => k))
  (at level 61, c at next level, right associativity).

(** Projections of a run. *)
Definition outcome_of {A : Type} (x : result A * Store * list event) : result A :=
  fst (fst x).
Definition store_of {A : Type} (x : result A * Store * list event) : Store :=
  snd (fst x).
Definition calls_of {A : Type} (x : result A * Store * list event) : list event :=
  snd x.

(** The outcome of one device: the word of the log line at index.ts, 201,
    or [Skipped] for the return at index.ts, 175, which logs nothing. *)
Inductive outcome : Type :=
| Skipped
| Created
| Updated
| Untouched.

(** ** The worker's functions *)

(** The body of the loop of [get_devices] (index.ts, 93-104). *)
Definition get_devices_step (devices : Devices) (device : DeviceObs) : Devices :=
  let id := obs_id device in
  let name := obs_name device in
  let updated := obs_updated_at device in
  let existing :=
    filter (fun device => String.eqb (d_name device) name) (Obj.values devices) in
  if match existing with
     | [] => true
     | first :: _ => Date_lt (d_updated first) updated
     end
  then Obj.set id {| d_name := name; d_updated := updated; d_ip := Val JNull |} devices
  else devices.

(** The loop of [get_devices] (index.ts, 88-107) over what the directory
    yields. *)
Definition get_devices_of (listed : list DeviceObs) : Devices :=
  fold_left get_devices_step listed [].

(** The record index of [get_dns_records] (index.ts, 145-157) over what the
    DNS service yields. *)
Definition get_dns_records_step (records : Records) (record : ApiRecord) : Records :=
  let id := a_id record in
  let name := a_name record in
  let content := match a_content record with Some c => c | None => "" end in
  Obj.set id {| r_name := name; r_content := content |} records.

Definition get_dns_records_of (listed : list ApiRecord) : Records :=
  fold_left get_dns_records_step listed [].

(** The [try] block of [get_ip] (index.ts, 123-129). *)
Definition get_ip_try (response : Response) : result jsval :=
  json <-? json_body response ;;
  success <-? get_prop (Val json) "success" ;;
  if negb (is_true success) then Ok (Val JNull)
  else
    result <-? get_prop (Val json) "result" ;;
    metadata <-? get_prop result "metadata" ;;
    get_prop metadata "ipv4".

(** [devices[id].ip = ip]. *)
Definition set_ip (id : string) (ip : jsval) (devices : Devices) : Devices :=
  map (fun e =>
         if String.eqb (fst e) id
         then (fst e, {| d_name := d_name (snd e);
                         d_updated := d_updated (snd e);
                         d_ip := ip |})
         else e)
      devices.

(** The name of the record of a device (index.ts, 179). *)
Definition record_name (w : World) (device_name zone_name : string) : string :=
  JS.join_dot [toLowerCase w device_name; zone_name].

(** The entries of the record index whose name is [name] (index.ts, 182). *)
Definition entries_named (name : string) (records : Records)
  : list (string * DnsRecord) :=
  filter (fun e => String.eqb (r_name (snd e)) name) (Obj.entries records).

Definition mk_params (name zone_id content : string) (ttl : Z) : Params :=
  {| p_name := name; p_type := "A"; p_zone_id := zone_id;
     p_content := content; p_ttl := ttl |}.

(** The address and the authorization header of the lookup of [get_ip]
    (index.ts, 112-115). *)
Definition warp_url (account_id device_id : string) : string :=
  "https://api.cloudflare.com/client/v4/accounts/"
    ++ account_id ++ "/warp/" ++ device_id.

Definition bearer (api_token : string) : string := "Bearer " ++ api_token.

Section Worker.
Variable w : World.

(** *** The calls *)

Definition client_zones_get (zone_id : string) : M string :=
  fun s => (zones_get w zone_id, s, [ZonesGet zone_id]).

Definition client_devices_list (account_id : string) : M (list DeviceObs) :=
  fun s => (devices_list w account_id, s, [DevicesList account_id]).

Definition js_fetch (url authorization : string) : M Response :=
  fun s => (fetch w url authorization, s, [Fetch url authorization]).

Definition client_records_list (zone_id type_ : string) : M (list ApiRecord) :=
  fun s =>
    let e := RecordsList zone_id type_ in
    ((if rejects w e then Throw else Ok s), s, [e]).

(** A create that is accepted adds a record under a new identifier. *)
Definition client_records_create (p : Params) : M unit :=
  fun s =>
    let e := RecordsCreate p in
    if rejects w e then (Throw, s, [e])
    else (Ok tt,
          s ++ [{| a_id := new_id w s p; a_name := p_name p;
                   a_content := Some (p_content p) |}],
          [e]).

(** An update that is accepted rewrites the record of that identifier; one
    for an identifier the zone does not have is rejected. *)
Definition client_records_update (id : string) (p : Params) : M unit :=
  fun s =>
    let e := RecordsUpdate id p in
    if rejects w e || negb (existsb (fun r => String.eqb (a_id r) id) s)
    then (Throw, s, [e])
    else (Ok tt,
          map (fun r =>
                 if String.eqb (a_id r) id
                 then {| a_id := id; a_name := p_name p;
                         a_content := Some (p_content p) |}
                 else r)
              s,
          [e]).

(** *** The functions of index.ts *)

(** [get_zone_name] (index.ts, 137-141). *)
Definition get_zone_name (zone_id : string) : M string :=
  client_zones_get zone_id.

(** [get_devices] (index.ts, 87-108). *)
Definition get_devices (account_id : string) : M Devices :=
  listed <- client_devices_list account_id ;;
  ret (get_devices_of listed).

(** [get_ip] (index.ts, 111-134). *)
Definition get_ip (account_id device_id api_token : string) : M jsval :=
  response <- js_fetch (warp_url account_id device_id)
                       (bearer api_token) ;;
  if negb (status response =? 200)%N then ret (Val JNull)
  else
    match get_ip_try response with
    | Ok ip => ret ip
    | Throw => ret (Val JNull)
    end.

(** [get_dns_records] (index.ts, 144-158). *)
Definition get_dns_records (zone_id : string) : M Records :=
  listed <- client_records_list zone_id "A" ;;
  ret (get_dns_records_of listed).

(** [update_dns_record] (index.ts, 168-202). *)
Definition update_dns_record (zone_id zone_name : string) (records : Records)
           (device : Device) : M outcome :=
  let ttl := 300%Z in
  match nullish_or (d_ip device) (Val (JStr "")) with
  | Val (JStr content) =>
      if negb (isIPv4 content) then ret Skipped
      else
        let name := record_name w (d_name device) zone_name in
        let entries := entries_named name records in
        match entries with
        | (id, record) :: _ =>
            if negb (String.eqb (r_content record) content)
            then
              _ <- client_records_update id (mk_params name zone_id content ttl) ;;
              ret Updated
            else ret Untouched
        | [] =>
            _ <- client_records_create (mk_params name zone_id content ttl) ;;
            ret Created
        end
  | _ => throw (* [str.split] is not a function *)
  end.

(** The loop of [update_dns_records] over the entries of [devices]. *)
Fixpoint update_dns_records_loop (zone_id zone_name : string) (records : Records)
         (l : list (string * Device)) : M unit :=
  match l with
  | [] => ret tt
  | (_, device) :: rest =>
      _ <- update_dns_record zone_id zone_name records device ;;
      update_dns_records_loop zone_id zone_name records rest
  end.

(** [update_dns_records] (index.ts, 161-165). *)
Definition update_dns_records (zone_id zone_name : string) (records : Records)
           (devices : Devices) : M unit :=
  update_dns_records_loop zone_id zone_name records (Obj.entries devices).

(** The loop of [scheduled] that asks for the addresses (index.ts, 66-75),
    over the keys of [devices]. *)
Fixpoint find_ips (account_id api_token : string) (ids : list string)
         (devices : Devices) : M Devices :=
  match ids with
  | [] => ret devices
  | id :: rest =>
      ip <- get_ip account_id id api_token ;;
      if is_null ip then find_ips account_id api_token rest devices
      else find_ips account_id api_token rest (set_ip id ip devices)
  end.

(** [scheduled] (index.ts, 47-83). *)
Definition scheduled (env : Env) : M unit :=
  match ACCOUNT_ID env, ZONE_ID env, API_TOKEN env with
  | Some account_id, Some zone_id, Some api_token =>
      zone_name <- get_zone_name zone_id ;;
      devices <- get_devices account_id ;;
      devices <- find_ips account_id api_token (Obj.keys devices) devices ;;
      records <- get_dns_records zone_id ;;
      update_dns_records zone_id zone_name records devices
  | _, _, _ => ret tt
  end.

(** The part of [scheduled] before the record index is read: the zone
    name and the devices with their addresses. *)
Definition inventory (account_id zone_id api_token : string)
  : M (string * Devices) :=
  zone_name <- get_zone_name zone_id ;;
  devices <- get_devices account_id ;;
  devices <- find_ips account_id api_token (Obj.keys devices) devices ;;
  ret (zone_name, devices).

End Worker.

(** ** Notions of the specification *)

(** Four decimal octets, each between 0 and 255 and written without a
    leading zero, separated by dots. *)
Definition dotted_quad (s : string) : Prop :=
  exists a b c d : N,
    (a <= 255)%N /\ (b <= 255)%N /\ (c <= 255)%N /\ (d <= 255)%N /\
    s = (JS.String_of a ++ "." ++ JS.String_of b ++ "."
           ++ JS.String_of c ++ "." ++ JS.String_of d)%string.

Definition octet_check (n : N) : bool :=
  JS.test_digits (JS.String_of n) && (JS.Number (JS.String_of n) =? n)%N.

Fixpoint no_dot (s : string) : bool :=
  match s with
  | EmptyString => true
  | String c r => negb (Ascii.eqb c ".") && no_dot r
  end.

(** The answers of the address lookup that leave the address unknown: a
    status other than 200, a [success] that is not [true], a [metadata]
    without [ipv4], an empty [metadata], no [metadata] at all. *)
Definition non_success_status (r : Response) : Prop :=
  status r <> 200%N.

Definition success_not_true (r : Response) : Prop :=
  exists j, json_body r = Ok j /\
            forall v, get_prop (Val j) "success" = Ok v -> is_true v = false.

Definition address_missing (r : Response) : Prop :=
  exists j res md,
    json_body r = Ok j /\
    get_prop (Val j) "result" = Ok res /\
    get_prop res "metadata" = Ok md /\
    get_prop md "ipv4" = Ok Undefined.

Definition metadata_empty (r : Response) : Prop :=
  exists j res,
    json_body r = Ok j /\
    get_prop (Val j) "result" = Ok res /\
    get_prop res "metadata" = Ok (Val (JObj [])).

Definition metadata_missing (r : Response) : Prop :=
  exists j res,
    json_body r = Ok j /\
    get_prop (Val j) "result" = Ok res /\
    (get_prop res "metadata" = Ok Undefined \/
     get_prop res "metadata" = Ok (Val JNull)).

Definition address_unknown (r : Response) : Prop :=
  non_success_status r \/ success_not_true r \/ address_missing r
  \/ metadata_empty r \/ metadata_missing r.

(** An address that is [null] or [undefined]. *)
Definition nullish (v : jsval) : Prop := v = Val JNull \/ v = Undefined.

(** ** Notions for the second cycle *)

(** The address that a device asks a record for: the one it has, when it
    passes the check of [update_dns_record]. *)
Definition valid_address (device : Device) : option string :=
  match nullish_or (d_ip device) (Val (JStr "")) with
  | Val (JStr content) => if isIPv4 content then Some content else None
  | _ => None
  end.

(** The record names the devices with a valid address ask for, one per
    device, in the order of the devices. *)
Fixpoint targets (w : World) (zone_name : string) (l : list (string * Device))
  : list string :=
  match l with
  | [] => []
  | (_, device) :: rest =>
      match valid_address device with
      | Some _ => record_name w (d_name device) zone_name :: targets w zone_name rest
      | None => targets w zone_name rest
      end
  end.

(** The record index with the entry of one identifier rewritten. *)
Definition rewrite_entries (id : string) (v : DnsRecord) (o : Records) : Records :=
  map (fun e => if String.eqb (fst e) id then (fst e, v) else e) o.

(** A computation that only asks: whatever the store, it leaves it as it
    is, and its result and its calls, none of them a create or an update,
    do not depend on it. *)
Definition asks_only {A : Type} (m : M A) : Prop :=
  exists r t, (forall s, m s = (r, s, t)) /\ filter is_mutation t = [].

(** ** Concrete services, for the examples *)

Module Demo.

Definition env : Env :=
  {| API_TOKEN := Some "token"; ACCOUNT_ID := Some "acct"; ZONE_ID := Some "zone" |}.

(** The answer of the address lookup for a device that has an address. *)
Definition ip_response (ip : string) : Response :=
  {| status := 200;
     json_body :=
       Ok (JObj [("success", JBool true);
                 ("result", JObj [("metadata", JObj [("ipv4", JStr ip)])])]) |}.

(** An answer with an empty metadata block. *)
Definition empty_metadata_response : Response :=
  {| status := 200;
     json_body :=
       Ok (JObj [("success", JBool true);
                 ("result", JObj [("metadata", JObj [])])]) |}.

(** Services that list [listed], answer the lookup of a device from
    [answers] (404 for a device that is not there), reject the calls
    [rej] and number the new records. *)
Definition world (listed : list DeviceObs) (answers : list (string * Response))
           (rej : event -> bool) : World :=
  {| toLowerCase := JS.lower_ascii;
   zones_get := fun _ => Ok "example.com";
     devices_list := fun _ => Ok listed;
     fetch := fun url _ =>
                match find (fun a => String.eqb (warp_url "acct" (fst a)) url) answers with
                | Some a => Ok (snd a)
                | None => Ok {| status := 404; json_body := Throw |}
                end;
     rejects := rej;
     new_id := fun s _ => ("new-" ++ JS.String_of (N.of_nat (length s)))%string |}.

Definition no_reject (e : event) : bool := false.

Definition device (name ip : string) : Device :=
  {| d_name := name; d_updated := Time 1; d_ip := Val (JStr ip) |}.

(** Two sightings of one name, the later one newer. *)
Definition twice : list DeviceObs :=
  [ {| obs_id := "a"; obs_name := "x"; obs_updated_at := Time 1 |};
    {| obs_id := "b"; obs_name := "x"; obs_updated_at := Time 2 |} ].

(** One sighting whose timestamp does not parse. *)
Definition malformed : list DeviceObs :=
  [ {| obs_id := "a"; obs_name := "x"; obs_updated_at := Invalid_Date |} ].

(** Two devices whose names differ by case only. *)
Definition cased : list DeviceObs :=
  [ {| obs_id := "d1"; obs_name := "Laptop"; obs_updated_at := Time 1 |};
    {| obs_id := "d2"; obs_name := "laptop"; obs_updated_at := Time 1 |} ].

Definition cased_world : World :=
  world cased [("d1", ip_response "10.0.0.1"); ("d2", ip_response "10.0.0.2")]
        no_reject.

(** Two devices of different names. *)
Definition pair : list DeviceObs :=
  [ {| obs_id := "d1"; obs_name := "Alpha"; obs_updated_at := Time 1 |};
    {| obs_id := "d2"; obs_name := "beta"; obs_updated_at := Time 1 |} ].

Definition pair_answers : list (string * Response) :=
  [("d1", ip_response "10.0.0.1"); ("d2", ip_response "10.0.0.2")].

Definition pair_world : World := world pair pair_answers no_reject.

(** The same services, but the create for [alpha.example.com] is
    rejected. *)
Definition reject_alpha (e : event) : bool :=
  match e with
  | RecordsCreate p => String.eqb (p_name p) "alpha.example.com"
  | _ => false
  end.

Definition failing_world : World := world pair pair_answers reject_alpha.

(** A zone that has a stale record for [alpha.example.com]. *)
Definition stale_store : Store :=
  [ {| a_id := "r1"; a_name := "alpha.example.com"; a_content := Some "1.1.1.1" |} ].

End Demo.

(** ** Notions for the further properties *)

(** The entry that [get_devices] stores for a listed device
    (index.ts, 99-103). *)
Definition device_of (device : DeviceObs) : Device :=
  {| d_name := obs_name device; d_updated := obs_updated_at device;
     d_ip := Val JNull |}.

(** The entry that [get_dns_records] stores for a listed record
    (index.ts, 151-154). *)
Definition record_of (record : ApiRecord) : DnsRecord :=
  {| r_name := a_name record;
     r_content := match a_content record with Some c => c | None => "" end |}.

(** The devices of a name in the mapping (index.ts, 96). *)
Definition sightings (name : string) (devices : Devices) : list Device :=
  filter (fun device => String.eqb (d_name device) name) (Obj.values devices).

(** The address lookup of one device, as a call. *)
Definition lookup_call (account_id api_token id : string) : event :=
  Fetch (warp_url account_id id) (bearer api_token).

(** The body of a create or update call. *)
Definition call_params (e : event) : option Params :=
  match e with
  | RecordsCreate p => Some p
  | RecordsUpdate _ p => Some p
  | _ => None
  end.

(** A digit or a dot. *)
Definition digit_or_dot (c : ascii) : bool :=
  JS.is_digit c || Ascii.eqb c ".".

Fixpoint string_forall (f : ascii -> bool) (s : string) : bool :=
  match s with
  | EmptyString => true
  | String c r => f c && string_forall f r
  end.

Definition octet_length_check (n : N) : bool :=
  (1 <=? String.length (JS.String_of n))%nat
  && (String.length (JS.String_of n) <=? 3)%nat.

(** The calls that ask for the zone, the devices and their addresses. *)
Definition is_lookup (e : event) : bool :=
  match e with
  | ZonesGet _ | DevicesList _ | Fetch _ _ => true
  | _ => false
  end.

(** A computation that only looks up: like [asks_only], and none of its
    calls goes to the DNS records. *)
Definition looks_up_only {A : Type} (m : M A) : Prop :=
  exists r t, (forall s, m s = (r, s, t)) /\ forallb is_lookup t = true.

(** The call that [update_dns_record] makes for a device, when it makes
    one: a create when the index has no record of the name of the device,
    an update of the first record of that name when its content is not the
    address of the device. *)
Definition call_of_device (w : World) (zone_id zone_name : string)
           (records : Records)
           (device : Device) (e : event) : Prop :=
  exists c,
    valid_address device = Some c /\
    let n := record_name w (d_name device) zone_name in
    (entries_named n records = [] /\
     e = RecordsCreate (mk_params n zone_id c 300))
    \/
    (exists k record rest,
        entries_named n records = (k, record) :: rest /\
        r_content record <> c /\
        e = RecordsUpdate k (mk_params n zone_id c 300)).

(** The calls made for one device of the mapping: none, or one create or
    update with the record name of the device, type A, the zone, a TTL of
    300 and the address of the device, a valid one, as content. *)
Definition device_part (w : World) (zone_id zone_name : string)
           (entry : string * Device) (part : list event) : Prop :=
  part = []
  \/ exists e p,
      part = [e]
      /\ call_params e = Some p
      /\ p_name p = record_name w (d_name (snd entry)) zone_name
      /\ p_type p = "A" /\ p_zone_id p = zone_id /\ p_ttl p = 300%Z
      /\ d_ip (snd entry) = Val (JStr (p_content p))
      /\ isIPv4 (p_content p) = true.

(** The line that [update_dns_record] writes to the console when it gets
    to index.ts, 201; the return at index.ts, 175 writes none. *)
Definition console_line (name : string) (o : outcome) : option string :=
  match o with
  | Skipped => None
  | Created => Some ("DNS Record for " ++ name ++ " created")%string
  | Updated => Some ("DNS Record for " ++ name ++ " updated")%string
  | Untouched => Some ("DNS Record for " ++ name ++ " untouched")%string
  end.

(** What a run of [update_dns_record] has written to the console: nothing
    when it threw before the line. *)
Definition logged_line (name : string) (r : result outcome) : option string :=
  match r with
  | Ok o => console_line name o
  | Throw => None
  end.

(* ================================================================== *)
(** * Properties *)

(** ** Strings *)

Lemma split_dot_nonempty (s : string) : JS.split_dot s <> [].
Proof.
  destruct s as [|c r]; simpl; [discriminate|].
  destruct (Ascii.eqb c "."); [discriminate|].
  destruct (JS.split_dot r); discriminate.
Qed.

Lemma join_split_dot (s : string) : JS.join_dot (JS.split_dot s) = s.
Proof.
  induction s as [|c r IH]; [reflexivity|].
  simpl. destruct (Ascii.eqb c ".") eqn:E.
  - apply Ascii.eqb_eq in E. subst c.
    destruct (JS.split_dot r) as [|h t] eqn:S.
    + exfalso. now apply (split_dot_nonempty r).
    + change (JS.join_dot (EmptyString :: h :: t))
        with (String "." (JS.join_dot (h :: t))).
      now rewrite IH.
  - destruct (JS.split_dot r) as [|h t] eqn:S.
    + exfalso. now apply (split_dot_nonempty r).
    + destruct t as [|h' t'].
      * simpl in *. now rewrite IH.
      * change (JS.join_dot (String c h :: h' :: t'))
          with (String c (h ++ String "." (JS.join_dot (h' :: t')))%string).
        change (JS.join_dot (h :: h' :: t'))
          with (h ++ String "." (JS.join_dot (h' :: t')))%string in IH.
        now rewrite IH.
Qed.

Lemma split_dot_no_dot (x : string) : no_dot x = true -> JS.split_dot x = [x].
Proof.
  induction x as [|c r IH]; [reflexivity|].
  simpl. intros H. apply andb_true_iff in H as [Hc Hr].
  apply negb_true_iff in Hc. rewrite Hc, (IH Hr). reflexivity.
Qed.

Lemma split_dot_app (x r : string) :
  no_dot x = true ->
  JS.split_dot (x ++ String "." r)%string = x :: JS.split_dot r.
Proof.
  induction x as [|c x IH]; intros H.
  - reflexivity.
  - simpl in H. apply andb_true_iff in H as [Hc Hx].
    apply negb_true_iff in Hc.
    simpl. rewrite Hc, (IH Hx). reflexivity.
Qed.

Lemma all_digits_no_dot (s : string) : JS.all_digits s = true -> no_dot s = true.
Proof.
  induction s as [|c r IH]; [reflexivity|].
  simpl. intros H. apply andb_true_iff in H as [Hc Hr].
  rewrite (IH Hr), andb_true_r.
  destruct (Ascii.eqb c ".") eqn:E; [|reflexivity].
  apply Ascii.eqb_eq in E. subst c. discriminate Hc.
Qed.

Lemma test_digits_no_dot (s : string) : JS.test_digits s = true -> no_dot s = true.
Proof.
  destruct s; [discriminate|]. apply all_digits_no_dot.
Qed.

Lemma octets_checked : forallb octet_check (map N.of_nat (seq 0 256)) = true.
Proof. vm_compute. reflexivity. Qed.

Lemma octet_ok (n : N) :
  (n <= 255)%N ->
  JS.test_digits (JS.String_of n) = true /\ JS.Number (JS.String_of n) = n.
Proof.
  intros H.
  assert (Hin : In n (map N.of_nat (seq 0 256))).
  { rewrite <- (N2Nat.id n). apply in_map. apply in_seq. lia. }
  pose proof (proj1 (forallb_forall _ _) octets_checked n Hin) as C.
  unfold octet_check in C. apply andb_true_iff in C as [C1 C2].
  apply N.eqb_eq in C2. now split.
Qed.

(** The test that [isIPv4] applies to each part. *)
Lemma part_ok_iff (part : string) :
  (if negb (JS.test_digits part) then false
   else (0 <=? JS.Number part)%N && (JS.Number part <=? 255)%N
        && String.eqb (JS.String_of (JS.Number part)) part) = true
  <-> exists n, (n <= 255)%N /\ part = JS.String_of n.
Proof.
  split.
  - destruct (JS.test_digits part); simpl; [|discriminate].
    intros H. apply andb_true_iff in H as [H H3].
    apply andb_true_iff in H as [_ H2].
    apply N.leb_le in H2. apply String.eqb_eq in H3.
    exists (JS.Number part). now split.
  - intros [n [Hn ->]]. destruct (octet_ok n Hn) as [D E].
    rewrite D, E. simpl. rewrite String.eqb_refl, andb_true_r.
    apply andb_true_iff. split; apply N.leb_le; [apply N.le_0_l | exact Hn].
Qed.

Lemma isIPv4_iff (s : string) : isIPv4 s = true <-> dotted_quad s.
Proof.
  unfold isIPv4, dotted_quad. split.
  - intros H. pose proof (join_split_dot s) as J.
    destruct (JS.split_dot s) as [|p1 [|p2 [|p3 [|p4 [|p5 l]]]]];
      try discriminate H.
    cbn [length Nat.eqb negb forallb] in H.
    repeat (apply andb_true_iff in H as [?H H]).
    apply part_ok_iff in H0 as [a [Ha ->]].
    apply part_ok_iff in H1 as [b [Hb ->]].
    apply part_ok_iff in H2 as [c [Hc ->]].
    apply part_ok_iff in H3 as [d [Hd ->]].
    exists a, b, c, d. repeat split; try assumption.
    rewrite <- J. reflexivity.
  - intros (a & b & c & d & Ha & Hb & Hc & Hd & ->).
    assert (N : forall n, (n <= 255)%N -> no_dot (JS.String_of n) = true).
    { intros n Hn. apply test_digits_no_dot. now apply octet_ok. }
    change (JS.String_of a ++ "." ++ JS.String_of b ++ "."
              ++ JS.String_of c ++ "." ++ JS.String_of d)%string
      with (JS.String_of a ++ String "." (JS.String_of b ++ String "."
              (JS.String_of c ++ String "." (JS.String_of d))))%string.
    rewrite !split_dot_app, split_dot_no_dot by auto.
    cbn [length Nat.eqb negb forallb].
    rewrite !andb_true_iff. repeat split; try (apply part_ok_iff; eauto).
Qed.

(** ** Runs *)

Lemma bind_ok {A B : Type} (m : M A) (f : A -> M B) s a s1 t1 :
  m s = (Ok a, s1, t1) ->
  bind m f s = (outcome_of (f a s1), store_of (f a s1), t1 ++ calls_of (f a s1)).
Proof.
  intros H. unfold bind. rewrite H.
  destruct (f a s1) as [[r s2] t2]. reflexivity.
Qed.

Lemma bind_throw {A B : Type} (m : M A) (f : A -> M B) s s1 t1 :
  m s = (Throw, s1, t1) -> bind m f s = (Throw, s1, t1).
Proof. intros H. unfold bind. now rewrite H. Qed.

Lemma bind_ret_l {A B : Type} (a : A) (f : A -> M B) s :
  bind (ret a) f s = f a s.
Proof. unfold bind, ret. now destruct (f a s) as [[r s2] t2]. Qed.

Lemma bind_assoc {A B C : Type} (m : M A) (f : A -> M B) (g : B -> M C) s :
  bind (bind m f) g s = bind m (fun a => bind (f a) g) s.
Proof.
  unfold bind. destruct (m s) as [[[a|] s1] t1]; [|reflexivity].
  destruct (f a s1) as [[[b|] s2] t2]; [|reflexivity].
  destruct (g b s2) as [[r s3] t3]. now rewrite app_assoc.
Qed.

Lemma bind_ext {A B : Type} (m : M A) (f g : A -> M B) s :
  (forall a s', f a s' = g a s') -> bind m f s = bind m g s.
Proof.
  intros H. unfold bind. destruct (m s) as [[[a|] s1] t1]; [|reflexivity].
  now rewrite H.
Qed.

Lemma run_eta {A : Type} (x : result A * Store * list event) :
  x = (outcome_of x, store_of x, calls_of x).
Proof. now destruct x as [[r s] t]. Qed.

(** ** The decision of [update_dns_record] *)

Section Decision.
Variable w : World.
Variables zone_id zone_name : string.

(** A device without a valid address is left at the check. *)
Lemma update_dns_record_invalid records device content st :
  nullish_or (d_ip device) (Val (JStr "")) = Val (JStr content) ->
  isIPv4 content = false ->
  update_dns_record w zone_id zone_name records device st = (Ok Skipped, st, []).
Proof.
  intros Hc Hv. unfold update_dns_record. rewrite Hc, Hv. reflexivity.
Qed.

Lemma nullish_or_string device content :
  d_ip device = Val (JStr content) ->
  nullish_or (d_ip device) (Val (JStr "")) = Val (JStr content).
Proof. intros ->. reflexivity. Qed.

Lemma update_dns_record_found records device content id record rest st :
  d_ip device = Val (JStr content) ->
  isIPv4 content = true ->
  entries_named (record_name w (d_name device) zone_name) records
    = (id, record) :: rest ->
  update_dns_record w zone_id zone_name records device st
  = if negb (String.eqb (r_content record) content)
    then bind (client_records_update w id
                 (mk_params (record_name w (d_name device) zone_name)
                            zone_id content 300))
              (fun _ => ret Updated) st
    else (Ok Untouched, st, []).
Proof.
  intros Hc Hv He. unfold update_dns_record.
  rewrite (nullish_or_string _ _ Hc), Hv. cbn [negb]. rewrite He.
  destruct (negb (r_content record =? content)%string); reflexivity.
Qed.

Lemma update_dns_record_absent records device content st :
  d_ip device = Val (JStr content) ->
  isIPv4 content = true ->
  entries_named (record_name w (d_name device) zone_name) records = [] ->
  update_dns_record w zone_id zone_name records device st
  = bind (client_records_create w
            (mk_params (record_name w (d_name device) zone_name)
                       zone_id content 300))
         (fun _ => ret Created) st.
Proof.
  intros Hc Hv He. unfold update_dns_record.
  rewrite (nullish_or_string _ _ Hc), Hv. cbn [negb]. rewrite He.
  reflexivity.
Qed.

Lemma found_same_content_run records device content id record rest st :
  d_ip device = Val (JStr content) ->
  isIPv4 content = true ->
  entries_named (record_name w (d_name device) zone_name) records
    = (id, record) :: rest ->
  r_content record = content ->
  update_dns_record w zone_id zone_name records device st = (Ok Untouched, st, []).
Proof.
  intros Hc Hv He Hr.
  rewrite (update_dns_record_found records device content id record rest st
             Hc Hv He).
  apply String.eqb_eq in Hr. rewrite Hr. reflexivity.
Qed.

Lemma calls_of_update id p st :
  calls_of (bind (client_records_update w id p) (fun _ => ret Updated) st)
  = [RecordsUpdate id p].
Proof.
  unfold bind, client_records_update.
  destruct (rejects w _ || _); reflexivity.
Qed.

Lemma calls_of_create p st :
  calls_of (bind (client_records_create w p) (fun _ => ret Created) st)
  = [RecordsCreate p].
Proof.
  unfold bind, client_records_create.
  destruct (rejects w _); reflexivity.
Qed.
End Decision.

(** C3. A device with a valid address whose name is that of an existing
    record with another content issues one update, for the first such
    record and with the desired content, and nothing else; one whose name
    no record has issues one create, of type A with the desired content and
    a TTL of 300 seconds, and nothing else. *)
Theorem update_dns_record_update_or_create
        (w : World) (zone_id zone_name : string) (device : Device)
        (content : string) :
  d_ip device = Val (JStr content) ->
  isIPv4 content = true ->
  let name := record_name w (d_name device) zone_name in
  (forall records id record rest st,
      entries_named name records = (id, record) :: rest ->
      r_content record <> content ->
      calls_of (update_dns_record w zone_id zone_name records device st)
      = [RecordsUpdate id {| p_name := name; p_type := "A"; p_zone_id := zone_id;
                             p_content := content; p_ttl := 300 |}])
  /\
  (forall records st,
      entries_named name records = [] ->
      calls_of (update_dns_record w zone_id zone_name records device st)
      = [RecordsCreate {| p_name := name; p_type := "A"; p_zone_id := zone_id;
                          p_content := content; p_ttl := 300 |}]).
Proof.
  intros Hc Hv name. split.
  - intros records id record rest st He Hd.
    rewrite (update_dns_record_found w zone_id zone_name records device content
               id record rest st Hc Hv He).
    apply String.eqb_neq in Hd. rewrite Hd. cbn [negb].
    apply calls_of_update.
  - intros records st He.
    rewrite (update_dns_record_absent w zone_id zone_name records device content
               st Hc Hv He).
    apply calls_of_create.
Qed.

Lemma update_dns_record_update_or_create_witness :
  calls_of (update_dns_record Demo.pair_world "zone" "example.com"
              [("r1", {| r_name := "a.example.com"; r_content := "1.1.1.1" |})]
              (Demo.device "a" "2.2.2.2") Demo.stale_store)
  = [RecordsUpdate "r1" (mk_params "a.example.com" "zone" "2.2.2.2" 300)]
  /\
  calls_of (update_dns_record Demo.pair_world "zone" "example.com" []
              (Demo.device "a" "2.2.2.2") [])
  = [RecordsCreate (mk_params "a.example.com" "zone" "2.2.2.2" 300)].
Proof.
  destruct (update_dns_record_update_or_create Demo.pair_world "zone"
              "example.com" (Demo.device "a" "2.2.2.2") "2.2.2.2"
              eq_refl eq_refl) as [U C].
  split.
  - apply (U _ "r1" {| r_name := "a.example.com"; r_content := "1.1.1.1" |} []).
    + reflexivity.
    + discriminate.
  - apply C. reflexivity.
Defined.

(** C4. A device with a valid address whose matched record, the first of
    its name, already has the desired content issues no call at all; its
    outcome is "untouched" and the record store is the one it was. *)
Theorem update_dns_record_untouched
        (w : World) (zone_id zone_name : string) (records : Records)
        (device : Device) (content id : string) (record : DnsRecord)
        (rest : list (string * DnsRecord)) (st : Store) :
  d_ip device = Val (JStr content) ->
  isIPv4 content = true ->
  entries_named (record_name w (d_name device) zone_name) records
    = (id, record) :: rest ->
  r_content record = content ->
  update_dns_record w zone_id zone_name records device st = (Ok Untouched, st, []).
Proof.
  intros Hc Hv He Hr.
  now apply (found_same_content_run w zone_id zone_name records device
               content id record rest st).
Qed.

Lemma update_dns_record_untouched_witness :
  update_dns_record Demo.pair_world "zone" "example.com"
    [("r1", {| r_name := "a.example.com"; r_content := "2.2.2.2" |})]
    (Demo.device "A" "2.2.2.2") Demo.stale_store
  = (Ok Untouched, Demo.stale_store, []).
Proof.
  apply (update_dns_record_untouched Demo.pair_world "zone" "example.com" _ _
           "2.2.2.2" "r1" {| r_name := "a.example.com"; r_content := "2.2.2.2" |} []);
    reflexivity.
Defined.

(** C5. [isIPv4] accepts "10.0.0.1" and rejects "10.0.0.256", "10.0.0" and
    "abc.def.gh.i"; it accepts exactly the strings made of four decimal
    octets between 0 and 255, written without leading zero and separated by
    dots; and a device whose address fails the check issues no call. *)
Theorem isIPv4_validation :
  isIPv4 "10.0.0.1" = true /\
  isIPv4 "10.0.0.256" = false /\
  isIPv4 "10.0.0" = false /\
  isIPv4 "abc.def.gh.i" = false /\
  (forall s, isIPv4 s = true <-> dotted_quad s) /\
  (forall w zone_id zone_name records device address st,
      nullish_or (d_ip device) (Val (JStr "")) = Val (JStr address) ->
      isIPv4 address = false ->
      update_dns_record w zone_id zone_name records device st
      = (Ok Skipped, st, [])).
Proof.
  repeat split; try reflexivity; try apply isIPv4_iff.
  intros. now apply update_dns_record_invalid with (content := address).
Qed.

Lemma isIPv4_validation_witness :
  dotted_quad "192.168.0.1" /\
  update_dns_record Demo.pair_world "zone" "example.com"
    [("r1", {| r_name := "a.example.com"; r_content := "1.1.1.1" |})]
    (Demo.device "a" "10.0.0.256") Demo.stale_store
  = (Ok Skipped, Demo.stale_store, []).
Proof.
  destruct isIPv4_validation as (_ & _ & _ & _ & I & S).
  split.
  - apply (proj1 (I "192.168.0.1")). reflexivity.
  - apply (S Demo.pair_world "zone" "example.com" _ _ "10.0.0.256");
      reflexivity.
Defined.

(** C9. When the account identifier, the zone identifier or the API token
    is not set, [scheduled] returns at once: it makes no call (no device
    listing, no address lookup, no zone lookup, no record listing, no
    create, no update) and the record store is the one it was. *)
Theorem scheduled_missing_credential (w : World) (env : Env) (st : Store) :
  ACCOUNT_ID env = None \/ ZONE_ID env = None \/ API_TOKEN env = None ->
  scheduled w env st = (Ok tt, st, []).
Proof.
  unfold scheduled. intros [H | [H | H]]; rewrite H.
  - reflexivity.
  - destruct (ACCOUNT_ID env); reflexivity.
  - destruct (ACCOUNT_ID env), (ZONE_ID env); reflexivity.
Qed.

Lemma scheduled_missing_credential_witness :
  scheduled Demo.pair_world
            {| API_TOKEN := None; ACCOUNT_ID := Some "acct"; ZONE_ID := Some "zone" |}
            Demo.stale_store
  = (Ok tt, Demo.stale_store, []).
Proof.
  apply scheduled_missing_credential. right. right. reflexivity.
Defined.

(** ** Dictionaries *)

Section ObjFacts.
Context {V : Type}.
Implicit Types (o : Obj.t V) (k : string) (v : V).

Lemma has_false_iff k o : Obj.has k o = false <-> ~ In k (Obj.keys o).
Proof.
  unfold Obj.has, Obj.keys. induction o as [|[k' v'] o IH]; simpl.
  - tauto.
  - rewrite orb_false_iff, IH, String.eqb_neq. tauto.
Qed.

Lemma has_true_iff k o : Obj.has k o = true <-> In k (Obj.keys o).
Proof.
  destruct (Obj.has k o) eqn:E.
  - split; [intros _|reflexivity].
    destruct (in_dec string_dec k (Obj.keys o)) as [i|n]; [exact i|].
    apply has_false_iff in n. congruence.
  - apply has_false_iff in E. split; [discriminate|tauto].
Qed.

Lemma insert_index_split i k v o :
  exists o1 o2, o = o1 ++ o2 /\ Obj.insert_index i k v o = o1 ++ (k, v) :: o2.
Proof.
  induction o as [|[k' v'] o IH]; simpl.
  - exists [], []. split; reflexivity.
  - destruct (Obj.array_index k') as [j|].
    + destruct (j <? i)%N.
      * destruct IH as (o1 & o2 & E1 & E2).
        exists ((k', v') :: o1), o2. simpl. rewrite E2, <- E1. split; reflexivity.
      * exists [], ((k', v') :: o). split; reflexivity.
    + exists [], ((k', v') :: o). split; reflexivity.
Qed.

(** A new key takes one place; the other entries keep their order. *)
Lemma add_split k v o :
  exists o1 o2, o = o1 ++ o2 /\ Obj.add k v o = o1 ++ (k, v) :: o2.
Proof.
  unfold Obj.add. destruct (Obj.array_index k) as [i|].
  - apply insert_index_split.
  - exists o, []. rewrite app_nil_r. split; reflexivity.
Qed.

(** Assignment to a key that is there rewrites its first entry. *)
Lemma replace_split k v o :
  In k (Obj.keys o) ->
  exists o1 v0 o2, o = o1 ++ (k, v0) :: o2 /\ ~ In k (Obj.keys o1)
                   /\ Obj.replace k v o = o1 ++ (k, v) :: o2.
Proof.
  induction o as [|[k' v'] o IH]; simpl; [tauto|].
  intros H. destruct (String.eqb k' k) eqn:E.
  - apply String.eqb_eq in E. subst k'.
    exists [], v', o. simpl. tauto.
  - apply String.eqb_neq in E.
    destruct H as [H|H]; [congruence|].
    destruct (IH H) as (o1 & v0 & o2 & E1 & N & E2).
    exists ((k', v') :: o1), v0, o2. simpl. rewrite E2, <- E1.
    repeat split. intros [F|F]; [congruence|tauto].
Qed.

Lemma keys_app o1 o2 : Obj.keys (o1 ++ o2) = Obj.keys o1 ++ Obj.keys o2.
Proof. apply map_app. Qed.

Lemma keys_set_in k v o k' :
  In k' (Obj.keys (Obj.set k v o)) <-> k' = k \/ In k' (Obj.keys o).
Proof.
  unfold Obj.set. destruct (Obj.has k o) eqn:E.
  - apply has_true_iff in E.
    destruct (replace_split k v o E) as (o1 & v0 & o2 & E1 & _ & E2).
    rewrite E2, E1, !keys_app. simpl. rewrite !in_app_iff. simpl.
    intuition congruence.
  - destruct (add_split k v o) as (o1 & o2 & E1 & E2).
    rewrite E2, E1, !keys_app. simpl. rewrite !in_app_iff. simpl.
    intuition congruence.
Qed.

Lemma keys_set_NoDup k v o :
  NoDup (Obj.keys o) -> NoDup (Obj.keys (Obj.set k v o)).
Proof.
  intros ND. unfold Obj.set. destruct (Obj.has k o) eqn:E.
  - apply has_true_iff in E.
    destruct (replace_split k v o E) as (o1 & v0 & o2 & E1 & _ & E2).
    rewrite E2. rewrite E1 in ND. rewrite keys_app in *. exact ND.
  - apply has_false_iff in E.
    destruct (add_split k v o) as (o1 & o2 & E1 & E2).
    rewrite E2. rewrite E1 in ND, E. rewrite keys_app in *. simpl.
    apply NoDup_Add with (a := k) (l := Obj.keys o1 ++ Obj.keys o2).
    + apply Add_app.
    + now constructor.
Qed.

Lemma find_key_app k o1 e o2 :
  ~ In k (Obj.keys o1) -> fst e = k ->
  find (fun e => String.eqb (fst e) k) (o1 ++ e :: o2) = Some e.
Proof.
  intros N K. induction o1 as [|[k' v'] o1 IH]; simpl in *.
  - rewrite K, String.eqb_refl. reflexivity.
  - destruct (String.eqb k' k) eqn:E.
    + apply String.eqb_eq in E. tauto.
    + apply IH. tauto.
Qed.

(** Reading a key after assigning to it gives the value assigned. *)
Lemma get_set k v o : Obj.get k (Obj.set k v o) = Some v.
Proof.
  unfold Obj.get, Obj.set. destruct (Obj.has k o) eqn:E.
  - apply has_true_iff in E.
    destruct (replace_split k v o E) as (o1 & v0 & o2 & _ & N & E2).
    rewrite E2, (find_key_app k o1 (k, v) o2 N eq_refl). reflexivity.
  - apply has_false_iff in E.
    destruct (add_split k v o) as (o1 & o2 & E1 & E2).
    rewrite E2, (find_key_app k o1 (k, v) o2); [reflexivity| |reflexivity].
    rewrite E1, keys_app, in_app_iff in E. tauto.
Qed.
End ObjFacts.

(** ** The address lookup *)

Lemma get_ip_try_unknown (r : Response) :
  success_not_true r \/ address_missing r \/ metadata_empty r \/ metadata_missing r ->
  get_ip_try r = Throw \/ exists ip, get_ip_try r = Ok ip /\ nullish ip.
Proof.
  unfold get_ip_try, nullish.
  intros [(j & B & S) | [(j & res & md & B & R & Md & I)
                        | [(j & res & B & R & Md) | (j & res & B & R & Md)]]];
    rewrite B; cbn [bindR].
  - destruct (get_prop (Val j) "success") as [v|] eqn:E; cbn [bindR]; [|now left].
    rewrite (S v eq_refl). cbn [negb]. right. eauto.
  - destruct (get_prop (Val j) "success") as [v|]; cbn [bindR]; [|now left].
    destruct (negb (is_true v)); [right; eauto|].
    rewrite R. cbn [bindR]. rewrite Md. cbn [bindR]. rewrite I. right. eauto.
  - destruct (get_prop (Val j) "success") as [v|]; cbn [bindR]; [|now left].
    destruct (negb (is_true v)); [right; eauto|].
    rewrite R. cbn [bindR]. rewrite Md. cbn [bindR]. right.
    exists Undefined. split; [reflexivity | now right].
  - destruct (get_prop (Val j) "success") as [v|]; cbn [bindR]; [|now left].
    destruct (negb (is_true v)); [right; eauto|].
    rewrite R. cbn [bindR]. destruct Md as [Md|Md]; rewrite Md; now left.
Qed.

Lemma get_ip_unknown (w : World) account_id id api_token (r : Response) st :
  fetch w (warp_url account_id id) (bearer api_token) = Ok r ->
  address_unknown r ->
  exists ip,
    get_ip w account_id id api_token st
    = (Ok ip, st, [Fetch (warp_url account_id id) (bearer api_token)])
    /\ nullish ip.
Proof.
  intros F U. unfold get_ip, bind, js_fetch. rewrite F.
  destruct (negb (status r =? 200)%N) eqn:S.
  - exists (Val JNull). split; [reflexivity|now left].
  - destruct U as [U|U].
    + unfold non_success_status in U. apply negb_false_iff, N.eqb_eq in S. tauto.
    + destruct (get_ip_try_unknown r U) as [T | (ip & T & Nu)]; rewrite T.
      * exists (Val JNull). split; [reflexivity|now left].
      * exists ip. split; [reflexivity|exact Nu].
Qed.


(** ** Records without content *)

Lemma isIPv4_nonempty (content : string) : isIPv4 content = true -> content <> "".
Proof. intros H ->. discriminate H. Qed.


(** ** A rejected call *)

Lemma loop_app (w : World) zone_id zone_name records pre post st :
  update_dns_records_loop w zone_id zone_name records (pre ++ post) st
  = bind (update_dns_records_loop w zone_id zone_name records pre)
         (fun _ => update_dns_records_loop w zone_id zone_name records post) st.
Proof.
  revert st. induction pre as [|[id d] pre IH]; intros st.
  - simpl. now rewrite bind_ret_l.
  - simpl. rewrite bind_assoc. apply bind_ext. intros _ s. apply IH.
Qed.

(** The store and the calls of [update_dns_record] when the call it makes
    is rejected. *)
Lemma update_dns_record_rejected (w : World) zone_id zone_name records device st e :
  calls_of (update_dns_record w zone_id zone_name records device st) = [e] ->
  rejects w e = true ->
  update_dns_record w zone_id zone_name records device st = (Throw, st, [e]).
Proof.
  unfold update_dns_record.
  destruct (nullish_or (d_ip device) (Val (JStr ""))) as [|[| | |content| |]];
    try discriminate.
  destruct (negb (isIPv4 content)); [discriminate|].
  destruct (entries_named _ records) as [|[id record] rest].
  - unfold bind, client_records_create.
    destruct (rejects w (RecordsCreate _)) eqn:R.
    + intros [= <-] _. reflexivity.
    + intros [= <-]. congruence.
  - destruct (negb (r_content record =? content)%string); [|discriminate].
    unfold bind, client_records_update.
    destruct (rejects w (RecordsUpdate _ _)) eqn:R.
    + intros [= <-] _. reflexivity.
    + cbn [orb]. destruct (negb _); intros [= <-]; congruence.
Qed.

(** C7, as the code has it. When the call that [update_dns_record] makes
    for a device is rejected, [update_dns_records] throws there: the calls
    of the cycle are those of the devices before it and the rejected call,
    the store is as the devices before left it, and no device after it is
    looked at. *)
Theorem update_dns_records_stops_at_rejection
        (w : World) (zone_id zone_name : string) (records : Records)
        (pre post : list (string * Device)) (id : string) (device : Device)
        (st s1 : Store) (t1 : list event) (e : event) :
  update_dns_records w zone_id zone_name records pre st = (Ok tt, s1, t1) ->
  calls_of (update_dns_record w zone_id zone_name records device s1) = [e] ->
  rejects w e = true ->
  update_dns_records w zone_id zone_name records (pre ++ (id, device) :: post) st
  = (Throw, s1, t1 ++ [e]).
Proof.
  unfold update_dns_records, Obj.entries. intros Hpre Hc Hr.
  rewrite loop_app. unfold bind at 1. rewrite Hpre.
  cbn [update_dns_records_loop]. unfold bind.
  rewrite (update_dns_record_rejected w zone_id zone_name records device s1 e Hc Hr).
  reflexivity.
Qed.

Lemma update_dns_records_stops_at_rejection_witness :
  update_dns_records Demo.failing_world "zone" "example.com" []
    ([] ++ ("d1", Demo.device "Alpha" "10.0.0.1")
        :: [("d2", Demo.device "beta" "10.0.0.2")]) []
  = (Throw, [], [] ++ [RecordsCreate (mk_params "alpha.example.com" "zone" "10.0.0.1" 300)]).
Proof.
  apply update_dns_records_stops_at_rejection; reflexivity.
Defined.

(** C7 as stated fails: with two devices and the create of the first one
    rejected, the cycle throws and the create of the second one, which is
    issued when nothing is rejected, is never issued. *)
Lemma rejected_create_aborts_cycle :
  scheduled Demo.failing_world Demo.env []
  = (Throw, [],
     [ZonesGet "zone"; DevicesList "acct";
      Fetch (warp_url "acct" "d1") (bearer "token");
      Fetch (warp_url "acct" "d2") (bearer "token");
      RecordsList "zone" "A";
      RecordsCreate (mk_params "alpha.example.com" "zone" "10.0.0.1" 300)])
  /\ In (RecordsCreate (mk_params "beta.example.com" "zone" "10.0.0.2" 300))
        (calls_of (scheduled Demo.pair_world Demo.env []))
  /\ ~ In (RecordsCreate (mk_params "beta.example.com" "zone" "10.0.0.2" 300))
          (calls_of (scheduled Demo.failing_world Demo.env [])).
Proof.
  split; [vm_compute; reflexivity|]. split.
  - vm_compute. do 6 right. left. reflexivity.
  - vm_compute. intros H.
    repeat (destruct H as [H|H]; [discriminate H|]). exact H.
Qed.

(** ** Deduplication *)

Lemma filter_nil_existsb {A : Type} (f : A -> bool) (l : list A) :
  existsb f l = false -> filter f l = [].
Proof.
  induction l as [|a l IH]; simpl; [reflexivity|].
  intros H. apply orb_false_iff in H as [Ha Hl]. rewrite Ha. now apply IH.
Qed.

Lemma filter_cons_existsb {A : Type} (f : A -> bool) (l : list A) :
  existsb f l = true -> exists a r, filter f l = a :: r.
Proof.
  induction l as [|a l IH]; simpl; [discriminate|].
  destruct (f a); [eauto|]. exact IH.
Qed.

Lemma Date_lt_invalid (d : Date) : Date_lt d Invalid_Date = false.
Proof. now destruct d. Qed.

Lemma get_devices_of_app (l1 l2 : list DeviceObs) :
  get_devices_of (l1 ++ l2) = fold_left get_devices_step l2 (get_devices_of l1).
Proof. apply fold_left_app. Qed.

(** C1 fails on the code. Two sightings of the name "x", the second one
    newer, both stay in the mapping: the newer one is stored under its own
    identifier and the older one is not removed. *)
Theorem get_devices_keeps_stale_entry :
  get_devices_of Demo.twice
  = [("a", {| d_name := "x"; d_updated := Time 1; d_ip := Val JNull |});
     ("b", {| d_name := "x"; d_updated := Time 2; d_ip := Val JNull |})]
  /\ length (filter (fun d => String.eqb (d_name d) "x")
                    (Obj.values (get_devices_of Demo.twice))) = 2%nat.
Proof. split; reflexivity. Qed.

(** C8 as stated fails: a sighting whose timestamp does not parse, met
    first for its name, is stored; a later sighting of that name with a
    good timestamp is then dropped. *)
Lemma malformed_timestamp_is_stored :
  get_devices_of Demo.malformed
  = [("a", {| d_name := "x"; d_updated := Invalid_Date; d_ip := Val JNull |})]
  /\ get_devices_of
       (Demo.malformed
          ++ [{| obs_id := "b"; obs_name := "x"; obs_updated_at := Time 5 |}])
     = [("a", {| d_name := "x"; d_updated := Invalid_Date; d_ip := Val JNull |})].
Proof. split; reflexivity. Qed.

(** C8, as the code has it. A sighting whose timestamp does not parse is
    skipped when the mapping already has an entry of its name, and stored
    under its identifier (with the invalid date) when it has none; when it
    is skipped, the mapping of the whole batch is the one of the batch
    without it. *)
Theorem get_devices_malformed_timestamp :
  (forall (devices : Devices) (device : DeviceObs),
      obs_updated_at device = Invalid_Date ->
      get_devices_step devices device
      = if existsb (fun d => String.eqb (d_name d) (obs_name device))
                   (Obj.values devices)
        then devices
        else Obj.set (obs_id device)
                     {| d_name := obs_name device; d_updated := Invalid_Date;
                        d_ip := Val JNull |}
                     devices)
  /\
  (forall (before after : list DeviceObs) (device : DeviceObs),
      obs_updated_at device = Invalid_Date ->
      existsb (fun d => String.eqb (d_name d) (obs_name device))
              (Obj.values (get_devices_of before)) = true ->
      get_devices_of (before ++ device :: after) = get_devices_of (before ++ after)).
Proof.
  assert (S : forall (devices : Devices) (device : DeviceObs),
      obs_updated_at device = Invalid_Date ->
      get_devices_step devices device
      = if existsb (fun d => String.eqb (d_name d) (obs_name device))
                   (Obj.values devices)
        then devices
        else Obj.set (obs_id device)
                     {| d_name := obs_name device; d_updated := Invalid_Date;
                        d_ip := Val JNull |}
                     devices).
  { intros devices device H. unfold get_devices_step. rewrite H.
    destruct (existsb _ (Obj.values devices)) eqn:E.
    - destruct (filter_cons_existsb _ _ E) as (a & r & F). rewrite F.
      now rewrite Date_lt_invalid.
    - now rewrite (filter_nil_existsb _ _ E). }
  split; [exact S|].
  intros before after device H E.
  rewrite !get_devices_of_app. cbn [fold_left].
  now rewrite (S _ _ H), E.
Qed.

Lemma get_devices_malformed_timestamp_witness :
  get_devices_step [] {| obs_id := "a"; obs_name := "x"; obs_updated_at := Invalid_Date |}
  = [("a", {| d_name := "x"; d_updated := Invalid_Date; d_ip := Val JNull |})]
  /\ get_devices_of
       (Demo.twice
          ++ {| obs_id := "c"; obs_name := "x"; obs_updated_at := Invalid_Date |}
          :: [{| obs_id := "d"; obs_name := "y"; obs_updated_at := Time 3 |}])
     = get_devices_of
         (Demo.twice ++ [{| obs_id := "d"; obs_name := "y"; obs_updated_at := Time 3 |}]).
Proof.
  destruct get_devices_malformed_timestamp as [A B]. split.
  - exact (A [] {| obs_id := "a"; obs_name := "x"; obs_updated_at := Invalid_Date |}
             eq_refl).
  - exact (B Demo.twice
             [{| obs_id := "d"; obs_name := "y"; obs_updated_at := Time 3 |}]
             {| obs_id := "c"; obs_name := "x"; obs_updated_at := Invalid_Date |}
             eq_refl eq_refl).
Defined.

(** ** Computations that only ask *)

Lemma asks_only_ret {A : Type} (a : A) : asks_only (ret a).
Proof. exists (Ok a), []. split; reflexivity. Qed.

Lemma asks_only_bind {A B : Type} (m : M A) (f : A -> M B) :
  asks_only m -> (forall a, asks_only (f a)) -> asks_only (bind m f).
Proof.
  intros (r & t & Hm & Ht) Hf. destruct r as [a|].
  - destruct (Hf a) as (r2 & t2 & Hf2 & Ht2).
    exists r2, (t ++ t2). split.
    + intros s. unfold bind. now rewrite Hm, Hf2.
    + now rewrite filter_app, Ht, Ht2.
  - exists Throw, t. split; [|exact Ht].
    intros s. unfold bind. now rewrite Hm.
Qed.

Section Asking.
Variable w : World.

Lemma asks_only_get_zone_name zone_id : asks_only (get_zone_name w zone_id).
Proof.
  exists (zones_get w zone_id), [ZonesGet zone_id]. split; reflexivity.
Qed.

Lemma asks_only_get_devices account_id : asks_only (get_devices w account_id).
Proof.
  apply asks_only_bind.
  - exists (devices_list w account_id), [DevicesList account_id].
    split; reflexivity.
  - intros. apply asks_only_ret.
Qed.

Lemma asks_only_get_ip account_id id api_token :
  asks_only (get_ip w account_id id api_token).
Proof.
  apply asks_only_bind.
  - exists (fetch w (warp_url account_id id) (bearer api_token)),
           [Fetch (warp_url account_id id) (bearer api_token)].
    split; reflexivity.
  - intros r. destruct (negb (status r =? 200)%N); [apply asks_only_ret|].
    destruct (get_ip_try r); apply asks_only_ret.
Qed.

Lemma asks_only_find_ips account_id api_token ids devices :
  asks_only (find_ips w account_id api_token ids devices).
Proof.
  revert devices. induction ids as [|id ids IH]; intros devices.
  - apply asks_only_ret.
  - cbn [find_ips]. apply asks_only_bind.
    + apply asks_only_get_ip.
    + intros ip. destruct (is_null ip); apply IH.
Qed.

Lemma asks_only_inventory account_id zone_id api_token :
  asks_only (inventory w account_id zone_id api_token).
Proof.
  unfold inventory. apply asks_only_bind; [apply asks_only_get_zone_name|].
  intros zn. apply asks_only_bind; [apply asks_only_get_devices|].
  intros devs. apply asks_only_bind; [apply asks_only_find_ips|].
  intros. apply asks_only_ret.
Qed.

(** [scheduled], for an environment that is complete, is the inventory
    followed by the reading of the records and the updates. *)
Lemma scheduled_inventory account_id zone_id api_token s :
  scheduled w {| API_TOKEN := Some api_token; ACCOUNT_ID := Some account_id;
                 ZONE_ID := Some zone_id |} s
  = bind (inventory w account_id zone_id api_token)
         (fun zd =>
            bind (get_dns_records w zone_id)
                 (fun records =>
                    update_dns_records w zone_id (fst zd) records (snd zd))) s.
Proof.
  unfold scheduled, inventory. cbn [ACCOUNT_ID ZONE_ID API_TOKEN].
  rewrite bind_assoc. apply bind_ext. intros zn s1.
  rewrite bind_assoc. apply bind_ext. intros devs s2.
  rewrite bind_assoc. apply bind_ext. intros devs' s3.
  now rewrite bind_ret_l.
Qed.
End Asking.

Lemma bind_ok_inv {A B : Type} (m : M A) (f : A -> M B) s b s' t :
  bind m f s = (Ok b, s', t) ->
  exists a s1 t1 t2,
    m s = (Ok a, s1, t1) /\ f a s1 = (Ok b, s', t2) /\ t = t1 ++ t2.
Proof.
  unfold bind. destruct (m s) as [[[a|] s1] t1]; [|discriminate].
  destruct (f a s1) as [[r s2] t2] eqn:F. intros [= -> -> <-].
  exists a, s1, t1, t2. now repeat split.
Qed.

(** ** The record index of a store *)

Lemma index_keys_in (l : list ApiRecord) (acc : Records) (k : string) :
  In k (Obj.keys (fold_left get_dns_records_step l acc))
  <-> In k (Obj.keys acc) \/ In k (map a_id l).
Proof.
  revert acc. induction l as [|a l IH]; intros acc; simpl.
  - tauto.
  - rewrite IH. unfold get_dns_records_step. rewrite keys_set_in.
    intuition congruence.
Qed.

Lemma index_keys_NoDup (l : list ApiRecord) (acc : Records) :
  NoDup (Obj.keys acc) -> NoDup (Obj.keys (fold_left get_dns_records_step l acc)).
Proof.
  revert acc. induction l as [|a l IH]; intros acc H; simpl; [exact H|].
  apply IH. unfold get_dns_records_step. now apply keys_set_NoDup.
Qed.

Lemma index_NoDup (s : Store) : NoDup (Obj.keys (get_dns_records_of s)).
Proof. apply index_keys_NoDup. constructor. Qed.

Lemma index_key_listed (s : Store) (k : string) :
  In k (Obj.keys (get_dns_records_of s)) -> In k (map a_id s).
Proof.
  intros H. apply index_keys_in in H as [H|H]; [destruct H|exact H].
Qed.

Lemma index_snoc (s : Store) (a : ApiRecord) :
  get_dns_records_of (s ++ [a]) = get_dns_records_step (get_dns_records_of s) a.
Proof. unfold get_dns_records_of. now rewrite fold_left_app. Qed.

Lemma keys_unique {V : Type} (o : Obj.t V) k v v' :
  NoDup (Obj.keys o) -> In (k, v) o -> In (k, v') o -> v = v'.
Proof.
  induction o as [|[k0 v0] o IH]; simpl; [tauto|].
  intros ND H H'. inversion ND as [|? ? N ND']; subst.
  destruct H as [H|H], H' as [H'|H'].
  - congruence.
  - inversion H; subst. exfalso. apply N.
    change k with (fst (k, v')). now apply in_map.
  - inversion H'; subst. exfalso. apply N.
    change k with (fst (k, v)). now apply in_map.
  - now apply IH.
Qed.

(** *** Rewriting one entry *)

Lemma rewrite_has id v k (o : Records) :
  Obj.has k (rewrite_entries id v o) = Obj.has k o.
Proof.
  unfold Obj.has, rewrite_entries. induction o as [|[k' v'] o IH]; simpl.
  - reflexivity.
  - rewrite IH. now destruct (String.eqb k' id).
Qed.

Lemma rewrite_replace id v k x (o : Records) :
  rewrite_entries id v (Obj.replace k x o)
  = Obj.replace k (if String.eqb k id then v else x) (rewrite_entries id v o).
Proof.
  unfold rewrite_entries. induction o as [|[k' v'] o IH]; simpl.
  - reflexivity.
  - destruct (String.eqb k' k) eqn:E.
    + apply String.eqb_eq in E. subst k'. simpl.
      destruct (String.eqb k id); simpl; now rewrite String.eqb_refl.
    + simpl. rewrite IH.
      destruct (String.eqb k' id); simpl; now rewrite E.
Qed.

Lemma rewrite_insert_index id v i k x (o : Records) :
  rewrite_entries id v (Obj.insert_index i k x o)
  = Obj.insert_index i k (if String.eqb k id then v else x) (rewrite_entries id v o).
Proof.
  unfold rewrite_entries. induction o as [|[k' v'] o IH]; simpl.
  - now destruct (String.eqb k id).
  - assert (K : fst (if String.eqb k' id then (k', v) else (k', v')) = k')
      by now destruct (String.eqb k' id).
    destruct (if String.eqb k' id then (k', v) else (k', v')) as [k2 v2] eqn:P.
    simpl in K. subst k2.
    destruct (Obj.array_index k') as [j|].
    + destruct (j <? i)%N.
      * simpl. rewrite P, IH. reflexivity.
      * simpl. rewrite P. now destruct (String.eqb k id).
    + simpl. rewrite P. now destruct (String.eqb k id).
Qed.

Lemma rewrite_set id v k x (o : Records) :
  rewrite_entries id v (Obj.set k x o)
  = Obj.set k (if String.eqb k id then v else x) (rewrite_entries id v o).
Proof.
  unfold Obj.set. rewrite rewrite_has. destruct (Obj.has k o).
  - apply rewrite_replace.
  - unfold Obj.add. destruct (Obj.array_index k) as [i|].
    + apply rewrite_insert_index.
    + unfold rewrite_entries. rewrite map_app. simpl.
      now destruct (String.eqb k id).
Qed.

(** The index of a store in which the record [id] was rewritten to
    [name] and [content]. *)
Lemma index_rewrite id name content (s : Store) (acc : Records) :
  fold_left get_dns_records_step
    (map (fun r => if String.eqb (a_id r) id
                   then {| a_id := id; a_name := name; a_content := Some content |}
                   else r) s)
    (rewrite_entries id {| r_name := name; r_content := content |} acc)
  = rewrite_entries id {| r_name := name; r_content := content |}
      (fold_left get_dns_records_step s acc).
Proof.
  revert acc. induction s as [|a s IH]; intros acc; simpl; [reflexivity|].
  rewrite <- IH. f_equal.
  unfold get_dns_records_step at 2. rewrite rewrite_set.
  unfold get_dns_records_step.
  destruct (String.eqb (a_id a) id) eqn:E.
  - apply String.eqb_eq in E. simpl. now rewrite E.
  - reflexivity.
Qed.

Lemma index_rewrite_store id name content (s : Store) :
  get_dns_records_of
    (map (fun r => if String.eqb (a_id r) id
                   then {| a_id := id; a_name := name; a_content := Some content |}
                   else r) s)
  = rewrite_entries id {| r_name := name; r_content := content |}
      (get_dns_records_of s).
Proof. exact (index_rewrite id name content s []). Qed.

(** *** The entries of a name *)

Lemma entries_named_app n (o1 o2 : Records) :
  entries_named n (o1 ++ o2) = entries_named n o1 ++ entries_named n o2.
Proof. apply filter_app. Qed.

Lemma entries_named_cons n (e : string * DnsRecord) (o : Records) :
  entries_named n (e :: o)
  = if String.eqb (r_name (snd e)) n then e :: entries_named n o
    else entries_named n o.
Proof. reflexivity. Qed.

Lemma entries_named_in n (o : Records) k r :
  In (k, r) (entries_named n o) <-> In (k, r) o /\ r_name r = n.
Proof.
  unfold entries_named, Obj.entries. rewrite filter_In. simpl.
  now rewrite String.eqb_eq.
Qed.

Lemma filter_map_same {A : Type} (f : A -> bool) (h : A -> A) (l : list A) :
  (forall a, In a l -> f (h a) = f a) ->
  filter f (map h l) = map h (filter f l).
Proof.
  induction l as [|a l IH]; simpl; intros H; [reflexivity|].
  rewrite (H a (or_introl eq_refl)), IH by auto.
  now destruct (f a).
Qed.

Lemma map_id_on {A : Type} (h : A -> A) (l : list A) :
  (forall a, In a l -> h a = a) -> map h l = l.
Proof.
  induction l as [|a l IH]; simpl; intros H; [reflexivity|].
  now rewrite (H a (or_introl eq_refl)), IH by auto.
Qed.

(** A record created under a new identifier, for a name that had no
    entry, is the one entry of its name; the other names keep theirs. *)
Lemma entries_after_create (s : Store) (n c new : string) :
  ~ In new (map a_id s) ->
  entries_named n (get_dns_records_of s) = [] ->
  let s' := s ++ [{| a_id := new; a_name := n; a_content := Some c |}] in
  entries_named n (get_dns_records_of s')
  = [(new, {| r_name := n; r_content := c |})]
  /\ forall m, m <> n ->
               entries_named m (get_dns_records_of s')
               = entries_named m (get_dns_records_of s).
Proof.
  intros Hnew Hn s'. subst s'. rewrite index_snoc.
  unfold get_dns_records_step. cbn [a_id a_name a_content].
  unfold Obj.set.
  assert (Hh : Obj.has new (get_dns_records_of s) = false).
  { apply has_false_iff. intros H. apply Hnew. now apply index_key_listed. }
  rewrite Hh.
  destruct (add_split new {| r_name := n; r_content := c |} (get_dns_records_of s))
    as (o1 & o2 & E1 & E2).
  rewrite E2. rewrite E1 in *. rewrite entries_named_app in *. split.
  - apply app_eq_nil in Hn as [H1 H2].
    rewrite H1, entries_named_cons, H2. cbn [snd r_name].
    now rewrite String.eqb_refl.
  - intros m Hm. rewrite !entries_named_app, entries_named_cons.
    cbn [snd r_name].
    apply not_eq_sym, String.eqb_neq in Hm. now rewrite Hm.
Qed.

(** A record rewritten with the name it has keeps its place among the
    entries of that name; the other names keep theirs. *)
Lemma entries_after_update (s : Store) (n c id : string) (record : DnsRecord)
      (rest : list (string * DnsRecord)) :
  entries_named n (get_dns_records_of s) = (id, record) :: rest ->
  let s' := map (fun r => if String.eqb (a_id r) id
                          then {| a_id := id; a_name := n; a_content := Some c |}
                          else r) s in
  (exists rest', entries_named n (get_dns_records_of s')
                 = (id, {| r_name := n; r_content := c |}) :: rest')
  /\ forall m, m <> n ->
               entries_named m (get_dns_records_of s')
               = entries_named m (get_dns_records_of s).
Proof.
  intros Hn s'. subst s'.
  rewrite (index_rewrite_store id n c s).
  set (o := get_dns_records_of s) in *.
  assert (Hin : In (id, record) o /\ r_name record = n).
  { apply entries_named_in. rewrite Hn. now left. }
  destruct Hin as [Hin Hname].
  assert (ND : NoDup (Obj.keys o)) by apply index_NoDup.
  assert (Same : forall m e, In e o ->
            String.eqb (r_name (snd (if String.eqb (fst e) id
                                     then (fst e, {| r_name := n; r_content := c |})
                                     else e))) m
            = String.eqb (r_name (snd e)) m).
  { intros m [k r] He. simpl. destruct (String.eqb k id) eqn:E; [|reflexivity].
    apply String.eqb_eq in E. subst k. simpl.
    now rewrite <- (keys_unique o id record r ND Hin He), Hname. }
  assert (Comm : forall m, entries_named m (rewrite_entries id {| r_name := n; r_content := c |} o)
                           = rewrite_entries id {| r_name := n; r_content := c |}
                               (entries_named m o)).
  { intros m. unfold entries_named, Obj.entries, rewrite_entries.
    apply filter_map_same. intros e He. now apply Same. }
  split.
  - exists (rewrite_entries id {| r_name := n; r_content := c |} rest).
    rewrite Comm, Hn. unfold rewrite_entries. simpl.
    now rewrite String.eqb_refl.
  - intros m Hm. rewrite Comm. unfold rewrite_entries.
    apply map_id_on. intros [k r] He.
    apply entries_named_in in He as [He Hr]. simpl.
    destruct (String.eqb k id) eqn:E; [|reflexivity].
    apply String.eqb_eq in E. subst k. exfalso. apply Hm.
    now rewrite <- Hr, <- (keys_unique o id record r ND Hin He).
Qed.

(** ** One cycle, then another *)

Lemma valid_address_some (device : Device) (c : string) :
  valid_address device = Some c <-> d_ip device = Val (JStr c) /\ isIPv4 c = true.
Proof.
  unfold valid_address, nullish_or. split.
  - destruct (d_ip device) as [|[| | |x| |]]; try discriminate.
    destruct (isIPv4 x) eqn:E; [|discriminate]. intros [= <-]. now split.
  - intros [-> ->]. reflexivity.
Qed.

Section Cycle.
Variable w : World.
Variables zone_id zone_name : string.

(** The identifiers of the store are kept, in their order; new ones come
    after them. *)
Lemma update_dns_record_ids records device s r s' t :
  update_dns_record w zone_id zone_name records device s = (r, s', t) ->
  exists more, map a_id s' = map a_id s ++ more.
Proof.
  unfold update_dns_record.
  destruct (nullish_or (d_ip device) (Val (JStr ""))) as [|[| | |content| |]];
    try (intros [= _ <- _]; exists []; now rewrite app_nil_r).
  destruct (negb (isIPv4 content));
    [intros [= _ <- _]; exists []; now rewrite app_nil_r|].
  destruct (entries_named _ records) as [|[id record] rest].
  - unfold bind, client_records_create, ret.
    destruct (rejects w _).
    + intros [= _ <- _]. exists []. now rewrite app_nil_r.
    + intros [= _ <- _]. rewrite map_app. eauto.
  - destruct (negb (r_content record =? content)%string);
      [|intros [= _ <- _]; exists []; now rewrite app_nil_r].
    unfold bind, client_records_update, ret.
    destruct (rejects w _ || _).
    + intros [= _ <- _]. exists []. now rewrite app_nil_r.
    + intros [= _ <- _]. exists []. rewrite app_nil_r, map_map.
      apply map_ext. intros a. destruct (String.eqb (a_id a) id) eqn:E.
      * apply String.eqb_eq in E. now rewrite E.
      * reflexivity.
Qed.

Lemma loop_ids records l s r s' t :
  update_dns_records_loop w zone_id zone_name records l s = (r, s', t) ->
  exists more, map a_id s' = map a_id s ++ more.
Proof.
  revert s r s' t. induction l as [|[id d] l IH]; intros s r s' t; simpl.
  - intros [= _ <- _]. exists []. now rewrite app_nil_r.
  - unfold bind.
    destruct (update_dns_record w zone_id zone_name records d s)
      as [[[o|] s1] t1] eqn:U;
      destruct (update_dns_record_ids _ _ _ _ _ _ U) as [m1 E1].
    + destruct (update_dns_records_loop w zone_id zone_name records l s1)
        as [[r2 s2] t2] eqn:L.
      intros [= _ <- _]. destruct (IH _ _ _ _ L) as [m2 E2].
      exists (m1 ++ m2). now rewrite E2, E1, app_assoc.
    + intros [= _ <- _]. eauto.
Qed.

Lemma NoDup_prefix {A : Type} (l more : list A) : NoDup (l ++ more) -> NoDup l.
Proof.
  induction l as [|a l IH]; simpl; intros H; [constructor|].
  inversion H as [|? ? N H']; subst. constructor.
  - intros I. apply N. apply in_or_app. now left.
  - now apply IH.
Qed.

(** A device without a valid address leaves the store as it is. *)
Lemma update_dns_record_no_address records device s o s' t :
  valid_address device = None ->
  update_dns_record w zone_id zone_name records device s = (Ok o, s', t) ->
  s' = s /\ t = [].
Proof.
  unfold valid_address, update_dns_record.
  destruct (nullish_or (d_ip device) (Val (JStr ""))) as [|[| | |content| |]];
    try discriminate.
  destruct (isIPv4 content); [discriminate|].
  intros _ [= _ <- <-]. now split.
Qed.

(** What a device with a valid address leaves in the store: a record of
    its name, met first among those of that name, with its address; the
    records of the other names are as they were. *)
Lemma update_dns_record_converges records device c s o s' t :
  valid_address device = Some c ->
  let n := record_name w (d_name device) zone_name in
  entries_named n (get_dns_records_of s) = entries_named n records ->
  update_dns_record w zone_id zone_name records device s = (Ok o, s', t) ->
  NoDup (map a_id s') ->
  (exists id record rest,
      entries_named n (get_dns_records_of s') = (id, record) :: rest
      /\ r_content record = c)
  /\ (forall m, m <> n ->
                entries_named m (get_dns_records_of s')
                = entries_named m (get_dns_records_of s)).
Proof.
  intros Hv n Hsnap Hrun ND.
  apply valid_address_some in Hv as [Hip Hok].
  destruct (entries_named n records) as [|[id record] rest] eqn:He.
  - rewrite (update_dns_record_absent w zone_id zone_name records device c s
               Hip Hok He) in Hrun.
    unfold bind, client_records_create, ret in Hrun.
    destruct (rejects w _); [discriminate|].
    injection Hrun as _ <- _. cbn [p_name p_content mk_params] in *.
    fold n in ND |- *.
    destruct (entries_after_create s n c
                (new_id w s (mk_params n zone_id c 300))) as [E1 E2].
    + rewrite map_app in ND. simpl in ND.
      apply NoDup_remove_2 in ND. now rewrite app_nil_r in ND.
    + exact Hsnap.
    + split; [|exact E2]. rewrite E1. eauto.
  - rewrite (update_dns_record_found w zone_id zone_name records device c
               id record rest s Hip Hok He) in Hrun.
    destruct (negb (r_content record =? c)%string) eqn:D.
    + unfold bind, client_records_update, ret in Hrun.
      destruct (rejects w _ || _); [discriminate|].
      injection Hrun as _ <- _. cbn [p_name p_content mk_params] in *.
      fold n.
      destruct (entries_after_update s n c id record rest Hsnap)
        as [[rest' E1] E2].
      split; [|exact E2]. rewrite E1. eauto.
    + injection Hrun as _ <- _. split; [|reflexivity].
      rewrite Hsnap. apply negb_false_iff, String.eqb_eq in D. eauto.
Qed.

Lemma in_targets l n :
  In n (targets w zone_name l)
  <-> exists id d c, In (id, d) l /\ valid_address d = Some c
                     /\ n = record_name w (d_name d) zone_name.
Proof.
  induction l as [|[id d] l IH]; simpl.
  - split; [tauto|]. intros (? & ? & ? & [] & _).
  - destruct (valid_address d) as [c|] eqn:V; simpl; rewrite IH; split.
    + intros [<-|(id' & d' & c' & I & V' & E)].
      * exists id, d, c. auto.
      * exists id', d', c'. auto.
    + intros (id' & d' & c' & [[= <- <-]|I] & V' & E).
      * now left.
      * right. exists id', d', c'. auto.
    + intros (id' & d' & c' & I & V' & E). exists id', d', c'. auto.
    + intros (id' & d' & c' & [[= <- <-]|I] & V' & E).
      * congruence.
      * exists id', d', c'. auto.
Qed.

(** After a cycle that went through, every device with a valid address
    finds, first among the records of its name, one with its address,
    provided the names asked for are pairwise different. *)
Lemma loop_converges records l :
  forall s s' t,
    NoDup (targets w zone_name l) ->
    (forall n, In n (targets w zone_name l) ->
               entries_named n (get_dns_records_of s) = entries_named n records) ->
    update_dns_records_loop w zone_id zone_name records l s = (Ok tt, s', t) ->
    NoDup (map a_id s') ->
    (forall id d c,
        In (id, d) l -> valid_address d = Some c ->
        exists k record rest,
          entries_named (record_name w (d_name d) zone_name) (get_dns_records_of s')
          = (k, record) :: rest /\ r_content record = c)
    /\ (forall m, ~ In m (targets w zone_name l) ->
                  entries_named m (get_dns_records_of s')
                  = entries_named m (get_dns_records_of s)).
Proof.
  induction l as [|[id d] l IH]; intros s s' t Hnd Hsnap Hrun ND.
  - simpl in Hrun. injection Hrun as <- _. split; [intros ? ? ? []|reflexivity].
  - cbn [update_dns_records_loop] in Hrun.
    apply bind_ok_inv in Hrun as (o & s1 & t1 & t2 & Hd & Hl & _).
    destruct (loop_ids _ _ _ _ _ _ Hl) as [more Hmore].
    assert (ND1 : NoDup (map a_id s1)).
    { rewrite Hmore in ND. now apply NoDup_prefix in ND. }
    cbn [targets] in Hnd, Hsnap |- *.
    destruct (valid_address d) as [c|] eqn:V.
    + inversion Hnd as [|? ? Nin Hnd']; subst.
      destruct (update_dns_record_converges records d c s o s1 t1 V
                  (Hsnap _ (or_introl eq_refl)) Hd ND1)
        as [(k & record & rest & Ek & Ec) Eother].
      destruct (IH s1 s' t2 Hnd') as [IH1 IH2]; [|exact Hl|exact ND|].
      { intros n Hn. rewrite Eother.
        - apply Hsnap. now right.
        - intros ->. contradiction. }
      split.
      * intros id' d' c' [[= <- <-]|I] V'.
        -- rewrite (IH2 _ Nin). rewrite V in V'. injection V' as <-. eauto.
        -- now apply (IH1 id' d' c').
      * intros m Hm. rewrite IH2 by (intros I; apply Hm; now right).
        apply Eother. intros ->. apply Hm. now left.
    + destruct (update_dns_record_no_address records d s o s1 t1 V Hd) as [-> _].
      destruct (IH s s' t2 Hnd Hsnap Hl ND) as [IH1 IH2].
      split; [|exact IH2].
      intros id' d' c' [[= <- <-]|I] V'; [congruence|].
      now apply (IH1 id' d' c').
Qed.

(** A cycle that went through met no address that is not a string. *)
Lemma loop_ok_strings records l s s' t :
  update_dns_records_loop w zone_id zone_name records l s = (Ok tt, s', t) ->
  forall id d, In (id, d) l ->
               exists c, nullish_or (d_ip d) (Val (JStr "")) = Val (JStr c).
Proof.
  revert s t. induction l as [|[id d] l IH]; intros s t Hrun id' d' I.
  - destruct I.
  - cbn [update_dns_records_loop] in Hrun.
    apply bind_ok_inv in Hrun as (o & s1 & t1 & t2 & Hd & Hl & _).
    destruct I as [[= <- <-]|I]; [|now apply (IH _ _ Hl id' d')].
    unfold update_dns_record in Hd.
    destruct (nullish_or (d_ip d) (Val (JStr ""))) as [|[| | |content| |]];
      try discriminate. eauto.
Qed.

(** A cycle in which every device with a valid address finds its address
    in the first record of its name makes no call. *)
Lemma loop_quiet records l s :
  (forall id d, In (id, d) l ->
                exists c, nullish_or (d_ip d) (Val (JStr "")) = Val (JStr c)) ->
  (forall id d c,
      In (id, d) l -> valid_address d = Some c ->
      exists k record rest,
        entries_named (record_name w (d_name d) zone_name) records
        = (k, record) :: rest /\ r_content record = c) ->
  update_dns_records_loop w zone_id zone_name records l s = (Ok tt, s, []).
Proof.
  induction l as [|[id d] l IH]; intros Hs Hc; [reflexivity|].
  cbn [update_dns_records_loop].
  assert (Hd : exists o, update_dns_record w zone_id zone_name records d s
                         = (Ok o, s, [])).
  { destruct (valid_address d) as [c|] eqn:V.
    - destruct (Hc id d c (or_introl eq_refl) V) as (k & record & rest & E & C).
      apply valid_address_some in V as [Hip Hok].
      exists Untouched.
      now apply (found_same_content_run w zone_id zone_name records d c
                   k record rest s).
    - destruct (Hs id d (or_introl eq_refl)) as [c E].
      exists Skipped. apply update_dns_record_invalid with (content := c); [exact E|].
      unfold valid_address in V. rewrite E in V.
      now destruct (isIPv4 c). }
  destruct Hd as [o Hd]. unfold bind. rewrite Hd.
  rewrite IH; [reflexivity| |].
  - intros id' d' I. apply (Hs id' d'). now right.
  - intros id' d' c I. apply (Hc id' d' c). now right.
Qed.
End Cycle.

Lemma get_dns_records_run (w : World) (zone_id : string) (s : Store) :
  get_dns_records w zone_id s
  = (if rejects w (RecordsList zone_id "A") then Throw
     else Ok (get_dns_records_of s),
     s, [RecordsList zone_id "A"]).
Proof.
  unfold get_dns_records, bind, client_records_list, ret.
  destruct (rejects w _); reflexivity.
Qed.

(** C2 as stated fails: two devices whose names differ by case only ask
    for the same record name; the first cycle creates two records of that
    name, and the second cycle, run on the store the first one left, issues
    an update. *)
Lemma second_cycle_updates_again :
  let first := scheduled Demo.cased_world Demo.env [] in
  outcome_of first = Ok tt
  /\ filter is_mutation
            (calls_of (scheduled Demo.cased_world Demo.env (store_of first)))
     = [RecordsUpdate "new-0" (mk_params "laptop.example.com" "zone" "10.0.0.2" 300)].
Proof. split; vm_compute; reflexivity. Qed.

(** C2, as the code has it. Take a cycle that goes through (no call is
    rejected, no address is of a wrong type) and in which the devices with
    a valid address ask for pairwise different record names, the DNS
    service having given the new records identifiers of their own. A second
    cycle with the same services, run on the store the first one left, goes
    through, issues no create and no update, and leaves the store as it
    is. *)
Theorem scheduled_twice_is_quiet
        (w : World) (account_id zone_id api_token zone_name : string)
        (devices : Devices) (s s0 s1 : Store) (t0 t1 : list event) :
  let env := {| API_TOKEN := Some api_token; ACCOUNT_ID := Some account_id;
                ZONE_ID := Some zone_id |} in
  inventory w account_id zone_id api_token s = (Ok (zone_name, devices), s0, t0) ->
  NoDup (targets w zone_name (Obj.entries devices)) ->
  scheduled w env s = (Ok tt, s1, t1) ->
  NoDup (map a_id s1) ->
  exists t2,
    scheduled w env s1 = (Ok tt, s1, t2) /\ filter is_mutation t2 = [].
Proof.
  intros env Hinv Hnames Hrun ND. subst env.
  destruct (asks_only_inventory w account_id zone_id api_token)
    as (r & t & Hask & Hquiet).
  rewrite Hask in Hinv. injection Hinv as -> _ _.
  rewrite scheduled_inventory in Hrun.
  apply bind_ok_inv in Hrun as (zd & sa & ta & tb & Hi & Hrest & _).
  rewrite Hask in Hi. injection Hi as <- <- _. cbn [fst snd] in Hrest.
  apply bind_ok_inv in Hrest as (records & sb & tc & td & Hrec & Hupd & _).
  rewrite get_dns_records_run in Hrec.
  destruct (rejects w (RecordsList zone_id "A")) eqn:Rej; [discriminate|].
  injection Hrec as <- <- _.
  unfold update_dns_records in Hupd.
  destruct (loop_converges w zone_id zone_name (get_dns_records_of s)
              (Obj.entries devices) s s1 td Hnames (fun _ _ => eq_refl) Hupd ND)
    as [Hconv _].
  pose proof (loop_ok_strings w zone_id zone_name _ _ _ _ _ Hupd) as Hstr.
  exists (t ++ [RecordsList zone_id "A"] ++ []). split.
  - rewrite scheduled_inventory. unfold bind at 1. rewrite Hask. cbn [fst snd].
    unfold bind. rewrite get_dns_records_run, Rej.
    unfold update_dns_records.
    now rewrite (loop_quiet w zone_id zone_name (get_dns_records_of s1)
                   (Obj.entries devices) s1 Hstr Hconv).
  - rewrite filter_app, Hquiet. reflexivity.
Qed.

Lemma scheduled_twice_is_quiet_witness :
  let s1 := store_of (scheduled Demo.pair_world Demo.env Demo.stale_store) in
  exists t2,
    scheduled Demo.pair_world Demo.env s1 = (Ok tt, s1, t2)
    /\ filter is_mutation t2 = [].
Proof.
  intros s1.
  eapply (scheduled_twice_is_quiet Demo.pair_world "acct" "zone" "token"
            "example.com" _ Demo.stale_store).
  - vm_compute. reflexivity.
  - vm_compute. repeat constructor; simpl; intuition discriminate.
  - vm_compute. reflexivity.
  - vm_compute. repeat constructor; simpl; intuition discriminate.
Defined.

(** ** Examples *)

Example record_name_lowercase :
  record_name Demo.pair_world "Laptop-01" "example.com" = "laptop-01.example.com".
Proof. reflexivity. Qed.

Example isIPv4_leading_zero : isIPv4 "10.0.0.01" = false.
Proof. reflexivity. Qed.

Example isIPv4_empty : isIPv4 "" = false.
Proof. reflexivity. Qed.

Example isIPv4_five_parts : isIPv4 "1.2.3.4.5" = false.
Proof. reflexivity. Qed.

Example isIPv4_bounds : isIPv4 "0.255.0.255" = true.
Proof. reflexivity. Qed.

(** Array-index keys are enumerated first, by value. *)
Example enumeration_order :
  Obj.keys (Obj.set "10" 1 (Obj.set "b" 2 (Obj.set "9" 3 (Obj.set "a" 4 []))))
  = ["9"; "10"; "a"; "b"].
Proof. reflexivity. Qed.

(** The newest sighting first: the older one is dropped. *)
Example get_devices_newest_first :
  get_devices_of
    [ {| obs_id := "b"; obs_name := "x"; obs_updated_at := Time 2 |};
      {| obs_id := "a"; obs_name := "x"; obs_updated_at := Time 1 |} ]
  = [("b", {| d_name := "x"; d_updated := Time 2; d_ip := Val JNull |})].
Proof. reflexivity. Qed.

(** A cycle on a zone with a stale record: one update, one create; the
    next cycle only reads. *)
Example cycle_then_quiet :
  filter is_mutation (calls_of (scheduled Demo.pair_world Demo.env Demo.stale_store))
  = [RecordsUpdate "r1" (mk_params "alpha.example.com" "zone" "10.0.0.1" 300);
     RecordsCreate (mk_params "beta.example.com" "zone" "10.0.0.2" 300)]
  /\ filter is_mutation
       (calls_of (scheduled Demo.pair_world Demo.env
                    (store_of (scheduled Demo.pair_world Demo.env Demo.stale_store))))
     = [].
Proof. split; vm_compute; reflexivity. Qed.

(* ================================================================== *)
(** * Further properties of the worker *)

(** ** Assignment to a key *)

Section SetFacts.
Context {V : Type}.
Implicit Types (o : Obj.t V) (k : string) (v : V).

Lemma set_in_new k v o : In (k, v) (Obj.set k v o).
Proof.
  unfold Obj.set. destruct (Obj.has k o) eqn:E.
  - apply has_true_iff in E.
    destruct (replace_split k v o E) as (o1 & v0 & o2 & _ & _ & E2).
    rewrite E2. apply in_or_app. right. now left.
  - destruct (add_split k v o) as (o1 & o2 & _ & E2).
    rewrite E2. apply in_or_app. right. now left.
Qed.

Lemma set_in_inv k v o e : In e (Obj.set k v o) -> e = (k, v) \/ In e o.
Proof.
  unfold Obj.set. destruct (Obj.has k o) eqn:E.
  - apply has_true_iff in E.
    destruct (replace_split k v o E) as (o1 & v0 & o2 & E1 & _ & E2).
    rewrite E2, E1, !in_app_iff. simpl. intuition auto.
  - destruct (add_split k v o) as (o1 & o2 & E1 & E2).
    rewrite E2, E1, !in_app_iff. simpl. intuition auto.
Qed.

Lemma set_in_other k v o e : In e o -> fst e <> k -> In e (Obj.set k v o).
Proof.
  intros I N. unfold Obj.set. destruct (Obj.has k o) eqn:E.
  - apply has_true_iff in E.
    destruct (replace_split k v o E) as (o1 & v0 & o2 & E1 & _ & E2).
    rewrite E2. rewrite E1 in I. rewrite in_app_iff in *. simpl in *.
    destruct I as [I|[I|I]]; auto. subst e. simpl in N. congruence.
  - destruct (add_split k v o) as (o1 & o2 & E1 & E2).
    rewrite E2. rewrite E1 in I. rewrite in_app_iff in *. simpl. tauto.
Qed.

Lemma find_key_none k o :
  ~ In k (Obj.keys o) -> find (fun e => String.eqb (fst e) k) o = None.
Proof.
  induction o as [|[k' v'] o IH]; simpl; [reflexivity|].
  intros N. destruct (String.eqb k' k) eqn:E.
  - apply String.eqb_eq in E. tauto.
  - apply IH. tauto.
Qed.

Lemma get_none k o : ~ In k (Obj.keys o) -> Obj.get k o = None.
Proof. intros N. unfold Obj.get. now rewrite find_key_none. Qed.

Lemma get_in k v o : NoDup (Obj.keys o) -> In (k, v) o -> Obj.get k o = Some v.
Proof.
  intros ND I. apply in_split in I as (o1 & o2 & ->).
  unfold Obj.get. rewrite (find_key_app k o1 (k, v) o2); [reflexivity| |reflexivity].
  rewrite keys_app in ND. simpl in ND. apply NoDup_remove_2 in ND.
  intros H. apply ND. apply in_or_app. now left.
Qed.
End SetFacts.

(** ** What [get_devices] keeps *)

Lemma get_devices_step_in (devices : Devices) (device : DeviceObs) e :
  In e (get_devices_step devices device) ->
  e = (obs_id device, device_of device) \/ In e devices.
Proof.
  unfold get_devices_step.
  destruct (match filter _ (Obj.values devices) with
            | [] => true
            | first :: _ => Date_lt (d_updated first) (obs_updated_at device)
            end); [|tauto].
  apply set_in_inv.
Qed.

Lemma fold_devices_in (l : list DeviceObs) (acc : Devices) e :
  In e (fold_left get_devices_step l acc) ->
  In e acc \/ exists device, In device l /\ e = (obs_id device, device_of device).
Proof.
  revert acc. induction l as [|o l IH]; intros acc; simpl; [tauto|].
  intros H. destruct (IH _ H) as [H1|(d & I & E)].
  - destruct (get_devices_step_in _ _ _ H1) as [->|H2]; [right|now left].
    exists o. auto.
  - right. exists d. auto.
Qed.

Lemma entries_are_listed (listed : list DeviceObs)
      (id : string) (d : Device) :
  In (id, d) (get_devices_of listed) ->
  exists device,
    In device listed /\ obs_id device = id /\ d = device_of device.
Proof.
  intros H. destruct (fold_devices_in listed [] _ H) as [[]|(o & I & E)].
  injection E as -> ->. exists o. auto.
Qed.

(** X1. Every entry of the mapping that [get_devices] returns is a listed
    device: it is stored under the identifier of that device, with its name
    and date, and with no address yet. *)
Theorem get_devices_entries_are_listed (listed : list DeviceObs)
        (id : string) (d : Device) :
  In (id, d) (get_devices_of listed) ->
  exists device,
    In device listed /\ obs_id device = id /\ d = device_of device.
Proof. apply entries_are_listed. Qed.

Lemma get_devices_entries_are_listed_witness :
  exists device,
    In device Demo.twice /\ obs_id device = "b"
    /\ {| d_name := "x"; d_updated := Time 2; d_ip := Val JNull |} = device_of device.
Proof.
  apply (get_devices_entries_are_listed Demo.twice "b").
  vm_compute. right. left. reflexivity.
Defined.

Lemma sightings_in (n : string) (devices : Devices) (d : Device) :
  In d (sightings n devices) <-> (exists k, In (k, d) devices) /\ d_name d = n.
Proof.
  unfold sightings, Obj.values. rewrite filter_In, in_map_iff, String.eqb_eq.
  split.
  - intros [([k d'] & E & I) N]. simpl in E. subst d'. eauto.
  - intros [[k I] N]. split; [|exact N]. now exists (k, d).
Qed.

Lemma fold_devices_keeps (l : list DeviceObs) (acc : Devices) e :
  In e acc ->
  (forall device, In device l -> obs_id device <> fst e) ->
  In e (fold_left get_devices_step l acc).
Proof.
  revert acc. induction l as [|o l IH]; intros acc I N; simpl; [exact I|].
  apply IH; [|intros; apply N; now right].
  unfold get_devices_step.
  destruct (match filter _ (Obj.values acc) with
            | [] => true
            | first :: _ => Date_lt (d_updated first) (obs_updated_at o)
            end); [|exact I].
  apply set_in_other; [exact I|].
  intros E. apply (N o); [now left|now symmetry].
Qed.

Lemma NoDup_ids_split (l1 l2 : list DeviceObs) (o : DeviceObs) :
  NoDup (map obs_id (l1 ++ o :: l2)) ->
  (forall device, In device l1 -> obs_id device <> obs_id o)
  /\ (forall device, In device l2 -> obs_id device <> obs_id o).
Proof.
  rewrite map_app. simpl. intros ND.
  pose proof (NoDup_remove_2 _ _ _ ND) as N. split; intros d I E; apply N;
    apply in_or_app; [left|right]; rewrite <- E; now apply in_map.
Qed.

Lemma first_sighting_step (acc : Devices) (o : DeviceObs) :
  sightings (obs_name o) acc = [] ->
  get_devices_step acc o = Obj.set (obs_id o) (device_of o) acc.
Proof.
  unfold sightings, get_devices_step. intros ->. reflexivity.
Qed.

Lemma no_sighting_before (l1 : list DeviceObs) (n : string) :
  (forall device, In device l1 -> obs_name device <> n) ->
  sightings n (get_devices_of l1) = [].
Proof.
  intros H. destruct (sightings n (get_devices_of l1)) as [|d r] eqn:E;
    [reflexivity|].
  assert (I : In d (sightings n (get_devices_of l1))) by (rewrite E; now left).
  apply sightings_in in I as [[k I] N].
  apply entries_are_listed in I as (o & Io & _ & ->).
  exfalso. now apply (H o Io).
Qed.

(** X2. When the listed devices have identifiers of their own, the first
    device listed under a name is kept: the mapping holds its entry under
    its identifier, whatever comes after it. *)
Theorem get_devices_keeps_first_sighting
        (before after : list DeviceObs) (device : DeviceObs) :
  NoDup (map obs_id (before ++ device :: after)) ->
  (forall other, In other before -> obs_name other <> obs_name device) ->
  In (obs_id device, device_of device)
     (get_devices_of (before ++ device :: after)).
Proof.
  intros ND First.
  destruct (NoDup_ids_split _ _ _ ND) as [_ Nafter].
  rewrite get_devices_of_app. cbn [fold_left].
  apply fold_devices_keeps; [|exact Nafter].
  rewrite first_sighting_step by now apply no_sighting_before.
  apply set_in_new.
Qed.

Lemma get_devices_keeps_first_sighting_witness :
  In ("a", {| d_name := "x"; d_updated := Time 1; d_ip := Val JNull |})
     (get_devices_of
        ([{| obs_id := "z"; obs_name := "y"; obs_updated_at := Time 9 |}]
           ++ {| obs_id := "a"; obs_name := "x"; obs_updated_at := Time 1 |}
           :: [{| obs_id := "b"; obs_name := "x"; obs_updated_at := Time 2 |}])).
Proof.
  apply (get_devices_keeps_first_sighting
           [{| obs_id := "z"; obs_name := "y"; obs_updated_at := Time 9 |}]
           [{| obs_id := "b"; obs_name := "x"; obs_updated_at := Time 2 |}]
           {| obs_id := "a"; obs_name := "x"; obs_updated_at := Time 1 |}).
  - simpl. repeat constructor; simpl; intuition discriminate.
  - simpl. intros other [<-|[]]. discriminate.
Defined.

(** ** When [get_devices] leaves one entry for a name *)

Lemma sightings_app (n : string) (o1 o2 : Devices) :
  sightings n (o1 ++ o2) = sightings n o1 ++ sightings n o2.
Proof. unfold sightings, Obj.values. now rewrite map_app, filter_app. Qed.

Lemma sightings_cons (n : string) (e : string * Device) (o : Devices) :
  sightings n (e :: o)
  = if String.eqb (d_name (snd e)) n then snd e :: sightings n o
    else sightings n o.
Proof. reflexivity. Qed.

Lemma set_fresh_split {V : Type} (k : string) (v : V) (o : Obj.t V) :
  ~ In k (Obj.keys o) ->
  exists o1 o2, o = o1 ++ o2 /\ Obj.set k v o = o1 ++ (k, v) :: o2.
Proof.
  intros N. apply has_false_iff in N. unfold Obj.set. rewrite N.
  apply add_split.
Qed.

Lemma sightings_set_other (n k : string) (d : Device) (acc : Devices) :
  ~ In k (Obj.keys acc) -> d_name d <> n ->
  sightings n (Obj.set k d acc) = sightings n acc.
Proof.
  intros N D. destruct (set_fresh_split k d acc N) as (o1 & o2 & E1 & E2).
  rewrite E2, E1, !sightings_app, sightings_cons. cbn [snd].
  apply String.eqb_neq in D. now rewrite D.
Qed.

Lemma sightings_set_first (k : string) (d : Device) (acc : Devices) :
  ~ In k (Obj.keys acc) -> sightings (d_name d) acc = [] ->
  sightings (d_name d) (Obj.set k d acc) = [d].
Proof.
  intros N S. destruct (set_fresh_split k d acc N) as (o1 & o2 & E1 & E2).
  rewrite E2. rewrite E1, sightings_app in S. apply app_eq_nil in S as [S1 S2].
  rewrite sightings_app, sightings_cons, S1, S2. cbn [snd].
  now rewrite String.eqb_refl.
Qed.

Lemma get_devices_keys_listed (listed : list DeviceObs) (k : string) :
  In k (Obj.keys (get_devices_of listed)) -> In k (map obs_id listed).
Proof.
  unfold Obj.keys. rewrite in_map_iff. intros ([k' d] & E & I). simpl in E.
  subst k'. apply entries_are_listed in I as (o & Io & <- & _).
  now apply in_map.
Qed.

Lemma NoDup_app_disjoint {A : Type} (l1 l2 : list A) (x : A) :
  NoDup (l1 ++ l2) -> In x l1 -> In x l2 -> False.
Proof.
  induction l1 as [|a l1 IH]; simpl; intros ND I1 I2; [exact I1|].
  inversion ND as [|? ? N ND']; subst. destruct I1 as [->|I1].
  - apply N. apply in_or_app. now right.
  - now apply IH.
Qed.

Lemma fold_single_sighting (l : list DeviceObs) (acc : Devices) (o : DeviceObs) :
  sightings (obs_name o) acc = [device_of o] ->
  (forall other, In other l -> obs_name other = obs_name o ->
                 Date_lt (obs_updated_at o) (obs_updated_at other) = false) ->
  (forall other, In other l -> ~ In (obs_id other) (Obj.keys acc)) ->
  NoDup (map obs_id l) ->
  sightings (obs_name o) (fold_left get_devices_step l acc) = [device_of o].
Proof.
  revert acc. induction l as [|o' l IH]; intros acc S Old Fresh ND;
    [exact S|].
  cbn [fold_left]. inversion ND as [|? ? Nin ND']; subst.
  assert (Keep : forall acc', acc' = acc ->
            sightings (obs_name o) (fold_left get_devices_step l acc') = [device_of o]).
  { intros acc' ->. apply IH; auto.
    - intros other I. apply Old. now right.
    - intros other I. apply Fresh. now right. }
  unfold get_devices_step. fold (sightings (obs_name o') acc).
  destruct (String.eqb (obs_name o') (obs_name o)) eqn:E.
  - apply String.eqb_eq in E. rewrite E, S. cbn [device_of d_updated].
    rewrite (Old o' (or_introl eq_refl) E). now apply Keep.
  - apply String.eqb_neq in E.
    destruct (match sightings (obs_name o') acc with
              | [] => true
              | first :: _ => Date_lt (d_updated first) (obs_updated_at o')
              end); [|now apply Keep].
    apply IH; auto.
    + rewrite sightings_set_other; auto. apply Fresh. now left.
    + intros other I. apply Old. now right.
    + intros other I K. apply keys_set_in in K as [K|K].
      * apply Nin. rewrite <- K. now apply in_map.
      * apply (Fresh other); [now right|exact K].
Qed.

(** X3. When the listed devices have identifiers of their own and the
    first device listed under a name is not older than any later one of
    that name, the mapping holds exactly one entry of that name, the one of
    that first device. *)
Theorem get_devices_newest_first_is_alone
        (before after : list DeviceObs) (device : DeviceObs) :
  NoDup (map obs_id (before ++ device :: after)) ->
  (forall other, In other before -> obs_name other <> obs_name device) ->
  (forall other, In other after -> obs_name other = obs_name device ->
                 Date_lt (obs_updated_at device) (obs_updated_at other) = false) ->
  sightings (obs_name device) (get_devices_of (before ++ device :: after))
  = [device_of device].
Proof.
  intros ND First Old.
  destruct (NoDup_ids_split _ _ _ ND) as [Nbefore Nafter].
  assert (Fresh : ~ In (obs_id device) (Obj.keys (get_devices_of before))).
  { intros K. apply get_devices_keys_listed, in_map_iff in K as (o & E & I).
    now apply (Nbefore o I). }
  rewrite get_devices_of_app. cbn [fold_left].
  rewrite first_sighting_step by now apply no_sighting_before.
  apply fold_single_sighting.
  - apply (sightings_set_first (obs_id device) (device_of device)); [exact Fresh|].
    now apply no_sighting_before.
  - exact Old.
  - intros other I K. apply keys_set_in in K as [K|K].
    + now apply (Nafter other I).
    + apply get_devices_keys_listed in K.
      rewrite map_app in ND.
      apply (NoDup_app_disjoint _ _ (obs_id other) ND K).
      right. now apply in_map.
  - rewrite map_app in ND. simpl in ND.
    apply NoDup_remove_1, NoDup_app_remove_l in ND. exact ND.
Qed.

Lemma get_devices_newest_first_is_alone_witness :
  sightings "x"
    (get_devices_of
       ([{| obs_id := "z"; obs_name := "y"; obs_updated_at := Time 9 |}]
          ++ {| obs_id := "b"; obs_name := "x"; obs_updated_at := Time 2 |}
          :: [{| obs_id := "a"; obs_name := "x"; obs_updated_at := Time 1 |};
              {| obs_id := "c"; obs_name := "x"; obs_updated_at := Invalid_Date |}]))
  = [{| d_name := "x"; d_updated := Time 2; d_ip := Val JNull |}].
Proof.
  apply (get_devices_newest_first_is_alone
           [{| obs_id := "z"; obs_name := "y"; obs_updated_at := Time 9 |}]
           [{| obs_id := "a"; obs_name := "x"; obs_updated_at := Time 1 |};
            {| obs_id := "c"; obs_name := "x"; obs_updated_at := Invalid_Date |}]
           {| obs_id := "b"; obs_name := "x"; obs_updated_at := Time 2 |}).
  - simpl. repeat constructor; simpl; intuition discriminate.
  - simpl. intros other [<-|[]]. discriminate.
  - simpl. intros other [<-|[<-|[]]] _; reflexivity.
Defined.

(** ** Reading the record index *)

Lemma fold_index_keeps (l : list ApiRecord) (acc : Records) e :
  In e acc ->
  (forall a, In a l -> a_id a <> fst e) ->
  In e (fold_left get_dns_records_step l acc).
Proof.
  revert acc. induction l as [|a l IH]; intros acc I N; simpl; [exact I|].
  apply IH; [|intros; apply N; now right].
  unfold get_dns_records_step. apply set_in_other; [exact I|].
  intros E. apply (N a); [now left|now symmetry].
Qed.

Lemma index_entry_of_listed (s : Store) (a : ApiRecord) :
  NoDup (map a_id s) -> In a s ->
  In (a_id a, record_of a) (get_dns_records_of s).
Proof.
  intros ND I. apply in_split in I as (s1 & s2 & ->).
  unfold get_dns_records_of. rewrite fold_left_app. cbn [fold_left].
  apply fold_index_keeps.
  - unfold get_dns_records_step. apply (set_in_new (a_id a) (record_of a)).
  - intros b Ib E. rewrite map_app in ND. simpl in ND.
    apply NoDup_remove_2 in ND. apply ND. apply in_or_app. right.
    simpl in E. rewrite <- E. now apply in_map.
Qed.

Lemma fold_index_in (l : list ApiRecord) (acc : Records) e :
  In e (fold_left get_dns_records_step l acc) ->
  In e acc \/ exists a, In a l /\ e = (a_id a, record_of a).
Proof.
  revert acc. induction l as [|a l IH]; intros acc; simpl; [tauto|].
  intros H. destruct (IH _ H) as [H1|(b & I & E)].
  - unfold get_dns_records_step in H1. apply set_in_inv in H1 as [->|H1].
    + right. exists a. split; [now left|reflexivity].
    + now left.
  - right. exists b. auto.
Qed.

Lemma index_entry_listed (s : Store) (id : string) (record : DnsRecord) :
  In (id, record) (get_dns_records_of s) ->
  exists a, In a s /\ a_id a = id /\ record = record_of a.
Proof.
  intros H. destruct (fold_index_in s [] _ H) as [[]|(a & I & E)].
  injection E as -> ->. exists a. auto.
Qed.

(** X4. When the listed records have identifiers of their own, the index
    that [get_dns_records] builds gives, for the identifier of each listed
    record, its name and its content (the empty string when the content is
    missing), and nothing for an identifier that is not listed. *)
Theorem get_dns_records_lookup (s : Store) :
  NoDup (map a_id s) ->
  (forall a, In a s -> Obj.get (a_id a) (get_dns_records_of s) = Some (record_of a))
  /\ (forall id, ~ In id (map a_id s) -> Obj.get id (get_dns_records_of s) = None).
Proof.
  intros ND. split.
  - intros a I. apply get_in; [apply index_NoDup|].
    now apply index_entry_of_listed.
  - intros id N. apply get_none. intros K. apply N.
    now apply index_key_listed.
Qed.

Lemma get_dns_records_lookup_witness :
  (forall a, In a Demo.stale_store ->
             Obj.get (a_id a) (get_dns_records_of Demo.stale_store)
             = Some (record_of a))
  /\ (forall id, ~ In id (map a_id Demo.stale_store) ->
                 Obj.get id (get_dns_records_of Demo.stale_store) = None).
Proof.
  apply get_dns_records_lookup.
  simpl. repeat constructor; simpl; intuition discriminate.
Defined.

(** ** The address lookup, in full *)

Lemma is_true_inv (v : jsval) : is_true v = true -> v = Val (JBool true).
Proof. destruct v as [|[|[|]| | | |]]; simpl; congruence. Qed.

Lemma get_ip_run (w : World) account_id id api_token st :
  exists r, get_ip w account_id id api_token st
            = (r, st, [lookup_call account_id api_token id]).
Proof.
  unfold get_ip, bind, js_fetch, lookup_call, ret.
  destruct (fetch w _ _) as [resp|]; [|eexists; reflexivity].
  destruct (negb (status resp =? 200)%N); [eexists; reflexivity|].
  destruct (get_ip_try resp); eexists; reflexivity.
Qed.

(** X5. Given a response, [get_ip] does not throw, makes the one lookup
    call and leaves the store alone; the address it returns is null or
    undefined unless the status is 200, the success flag is true and the
    address is what [result.metadata.ipv4] holds. *)
Theorem get_ip_returns
        (w : World) (account_id id api_token : string) (r : Response) (st : Store) :
  fetch w (warp_url account_id id) (bearer api_token) = Ok r ->
  exists ip,
    get_ip w account_id id api_token st
    = (Ok ip, st, [lookup_call account_id api_token id])
    /\ (nullish ip
        \/ (status r = 200%N
            /\ exists j res md,
                json_body r = Ok j
                /\ get_prop (Val j) "success" = Ok (Val (JBool true))
                /\ get_prop (Val j) "result" = Ok res
                /\ get_prop res "metadata" = Ok md
                /\ get_prop md "ipv4" = Ok ip)).
Proof.
  intros F. unfold get_ip, bind, js_fetch, lookup_call. rewrite F.
  destruct (negb (status r =? 200)%N) eqn:S.
  { exists (Val JNull). split; [reflexivity|left; now left]. }
  apply negb_false_iff, N.eqb_eq in S.
  unfold get_ip_try.
  destruct (json_body r) as [j|] eqn:B; cbn [bindR];
    [|exists (Val JNull); split; [reflexivity|left; now left]].
  destruct (get_prop (Val j) "success") as [sv|] eqn:Sv; cbn [bindR];
    [|exists (Val JNull); split; [reflexivity|left; now left]].
  destruct (is_true sv) eqn:T; cbn [negb];
    [|exists (Val JNull); split; [reflexivity|left; now left]].
  apply is_true_inv in T. subst sv.
  destruct (get_prop (Val j) "result") as [res|] eqn:R; cbn [bindR];
    [|exists (Val JNull); split; [reflexivity|left; now left]].
  destruct (get_prop res "metadata") as [md|] eqn:Md; cbn [bindR];
    [|exists (Val JNull); split; [reflexivity|left; now left]].
  destruct (get_prop md "ipv4") as [ip|] eqn:I;
    [|exists (Val JNull); split; [reflexivity|left; now left]].
  exists ip. split; [reflexivity|]. right. split; [exact S|].
  exists j, res, md. auto.
Qed.

Lemma get_ip_returns_witness :
  exists ip,
    get_ip Demo.pair_world "acct" "d1" "token" Demo.stale_store
    = (Ok ip, Demo.stale_store, [lookup_call "acct" "token" "d1"])
    /\ (nullish ip
        \/ (status (Demo.ip_response "10.0.0.1") = 200%N
            /\ exists j res md,
                json_body (Demo.ip_response "10.0.0.1") = Ok j
                /\ get_prop (Val j) "success" = Ok (Val (JBool true))
                /\ get_prop (Val j) "result" = Ok res
                /\ get_prop res "metadata" = Ok md
                /\ get_prop md "ipv4" = Ok ip)).
Proof.
  apply (get_ip_returns Demo.pair_world "acct" "d1" "token"
           (Demo.ip_response "10.0.0.1")).
  reflexivity.
Defined.

(** ** The loop of the lookups *)

Lemma set_ip_shape (id : string) (ip : jsval) (devices : Devices) :
  map (fun e => (fst e, d_name (snd e), d_updated (snd e))) (set_ip id ip devices)
  = map (fun e => (fst e, d_name (snd e), d_updated (snd e))) devices.
Proof.
  unfold set_ip. rewrite map_map. apply map_ext. intros [k d]. simpl.
  now destruct (String.eqb k id).
Qed.

(** X6. When the loop of the lookups returns, it has made one lookup per
    identifier, in their order, and has left the store alone; the mapping
    it returns has the keys of the one it was given, in their order, with
    the same names and dates: only addresses changed. *)
Theorem find_ips_one_lookup_each
        (w : World) (account_id api_token : string) (ids : list string)
        (devices devices' : Devices) (st st' : Store) (t : list event) :
  find_ips w account_id api_token ids devices st = (Ok devices', st', t) ->
  st' = st
  /\ t = map (lookup_call account_id api_token) ids
  /\ map (fun e => (fst e, d_name (snd e), d_updated (snd e))) devices'
     = map (fun e => (fst e, d_name (snd e), d_updated (snd e))) devices.
Proof.
  revert devices t. induction ids as [|id ids IH]; intros devices t H.
  - simpl in H. injection H as <- <- <-. auto.
  - cbn [find_ips] in H.
    apply bind_ok_inv in H as (ip & s1 & t1 & t2 & G & K & ->).
    destruct (get_ip_run w account_id id api_token st) as [r Gr].
    rewrite Gr in G. injection G as _ <- <-.
    destruct (is_null ip).
    + destruct (IH _ _ K) as (-> & -> & E). auto.
    + destruct (IH _ _ K) as (-> & -> & E). rewrite set_ip_shape in E. auto.
Qed.

Lemma find_ips_one_lookup_each_witness :
  let run := find_ips Demo.pair_world "acct" "token" ["d1"; "d2"]
               (get_devices_of Demo.pair) Demo.stale_store in
  store_of run = Demo.stale_store
  /\ calls_of run = map (lookup_call "acct" "token") ["d1"; "d2"]
  /\ map (fun e => (fst e, d_name (snd e), d_updated (snd e)))
         [("d1", Demo.device "Alpha" "10.0.0.1"); ("d2", Demo.device "beta" "10.0.0.2")]
     = map (fun e => (fst e, d_name (snd e), d_updated (snd e)))
           (get_devices_of Demo.pair).
Proof.
  intros run.
  apply (find_ips_one_lookup_each Demo.pair_world "acct" "token" ["d1"; "d2"]
           (get_devices_of Demo.pair)
           [("d1", Demo.device "Alpha" "10.0.0.1"); ("d2", Demo.device "beta" "10.0.0.2")]
           Demo.stale_store (store_of run) (calls_of run)).
  vm_compute. reflexivity.
Defined.

(** ** Reads that fail *)

Lemma bind_run_ok {A B : Type} (m : M A) (f : A -> M B) s a s1 t1 r s2 t2 :
  m s = (Ok a, s1, t1) -> f a s1 = (r, s2, t2) ->
  bind m f s = (r, s2, t1 ++ t2).
Proof. intros Hm Hf. unfold bind. now rewrite Hm, Hf. Qed.

Lemma get_ip_ok (w : World) account_id id api_token (r : Response) st :
  fetch w (warp_url account_id id) (bearer api_token) = Ok r ->
  exists ip, get_ip w account_id id api_token st
             = (Ok ip, st, [lookup_call account_id api_token id]).
Proof.
  intros F. unfold get_ip, bind, js_fetch, lookup_call, ret. rewrite F.
  destruct (negb (status r =? 200)%N); [eexists; reflexivity|].
  destruct (get_ip_try r); eexists; reflexivity.
Qed.

Lemma get_ip_rejected (w : World) account_id id api_token st :
  fetch w (warp_url account_id id) (bearer api_token) = Throw ->
  get_ip w account_id id api_token st
  = (Throw, st, [lookup_call account_id api_token id]).
Proof.
  intros F. unfold get_ip, bind, js_fetch, lookup_call. now rewrite F.
Qed.

Lemma find_ips_rejected (w : World) account_id api_token
      (pre post : list string) (id : string) :
  (forall k, In k pre ->
             exists r, fetch w (warp_url account_id k) (bearer api_token) = Ok r) ->
  fetch w (warp_url account_id id) (bearer api_token) = Throw ->
  forall devices st,
    find_ips w account_id api_token (pre ++ id :: post) devices st
    = (Throw, st, map (lookup_call account_id api_token) (pre ++ [id])).
Proof.
  intros Hpre Hid. induction pre as [|k pre IH]; intros devices st.
  - cbn [app find_ips]. apply bind_throw. now apply get_ip_rejected.
  - cbn [app find_ips map].
    destruct (Hpre k (or_introl eq_refl)) as [r F].
    destruct (get_ip_ok w account_id k api_token r st F) as [ip G].
    assert (IH' : forall devices st,
               find_ips w account_id api_token (pre ++ id :: post) devices st
               = (Throw, st, map (lookup_call account_id api_token) (pre ++ [id]))).
    { apply IH. intros k' I. apply Hpre. now right. }
    apply (bind_run_ok _ _ _ _ _ _ _ _ _ G).
    destruct (is_null ip); apply IH'.
Qed.

(** X7. When the zone lookup fails, [scheduled] throws after that one
    call; when the device listing fails, it throws after the zone lookup
    and that listing. In both cases no address is looked up, no record is
    listed, created or updated, and the store is as it was. *)
Theorem scheduled_aborts_on_failed_reads
        (w : World) (account_id zone_id api_token : string) (st : Store) :
  let env := {| API_TOKEN := Some api_token; ACCOUNT_ID := Some account_id;
                ZONE_ID := Some zone_id |} in
  (zones_get w zone_id = Throw ->
   scheduled w env st = (Throw, st, [ZonesGet zone_id]))
  /\
  (forall zone_name,
      zones_get w zone_id = Ok zone_name ->
      devices_list w account_id = Throw ->
      scheduled w env st = (Throw, st, [ZonesGet zone_id; DevicesList account_id])).
Proof.
  intros env. subst env. split.
  - intros Z. unfold scheduled. cbn [ACCOUNT_ID ZONE_ID API_TOKEN].
    apply bind_throw. unfold get_zone_name, client_zones_get. now rewrite Z.
  - intros zn Z D. unfold scheduled. cbn [ACCOUNT_ID ZONE_ID API_TOKEN].
    apply (bind_run_ok _ _ st zn st [ZonesGet zone_id] Throw st
                       [DevicesList account_id]).
    + unfold get_zone_name, client_zones_get. now rewrite Z.
    + apply bind_throw. apply bind_throw. unfold client_devices_list.
      now rewrite D.
Qed.

Lemma scheduled_aborts_on_failed_reads_witness :
  scheduled {| toLowerCase := JS.lower_ascii;
               zones_get := fun _ => Throw;
               devices_list := devices_list Demo.pair_world;
               fetch := fetch Demo.pair_world;
               rejects := Demo.no_reject;
               new_id := new_id Demo.pair_world |}
            Demo.env Demo.stale_store
  = (Throw, Demo.stale_store, [ZonesGet "zone"])
  /\
  scheduled {| toLowerCase := JS.lower_ascii;
               zones_get := zones_get Demo.pair_world;
               devices_list := fun _ => Throw;
               fetch := fetch Demo.pair_world;
               rejects := Demo.no_reject;
               new_id := new_id Demo.pair_world |}
            Demo.env Demo.stale_store
  = (Throw, Demo.stale_store, [ZonesGet "zone"; DevicesList "acct"]).
Proof.
  split.
  - apply (proj1 (scheduled_aborts_on_failed_reads
                    {| toLowerCase := JS.lower_ascii;
               zones_get := fun _ => Throw;
                       devices_list := devices_list Demo.pair_world;
                       fetch := fetch Demo.pair_world;
                       rejects := Demo.no_reject;
                       new_id := new_id Demo.pair_world |}
                    "acct" "zone" "token" Demo.stale_store)).
    reflexivity.
  - apply (proj2 (scheduled_aborts_on_failed_reads
                    {| toLowerCase := JS.lower_ascii;
               zones_get := zones_get Demo.pair_world;
                       devices_list := fun _ => Throw;
                       fetch := fetch Demo.pair_world;
                       rejects := Demo.no_reject;
                       new_id := new_id Demo.pair_world |}
                    "acct" "zone" "token" Demo.stale_store) "example.com");
      reflexivity.
Defined.

(** X8. A lookup that is rejected (the promise of [fetch] is rejected, not
    a response with a bad status) is not caught: [scheduled] throws at that
    device, after the lookups of the devices before it, and lists, creates
    and updates no record. *)
Theorem scheduled_aborts_on_rejected_lookup
        (w : World) (account_id zone_id api_token zone_name : string)
        (listed : list DeviceObs) (pre post : list string) (id : string)
        (st : Store) :
  zones_get w zone_id = Ok zone_name ->
  devices_list w account_id = Ok listed ->
  Obj.keys (get_devices_of listed) = pre ++ id :: post ->
  (forall k, In k pre ->
             exists r, fetch w (warp_url account_id k) (bearer api_token) = Ok r) ->
  fetch w (warp_url account_id id) (bearer api_token) = Throw ->
  scheduled w {| API_TOKEN := Some api_token; ACCOUNT_ID := Some account_id;
                 ZONE_ID := Some zone_id |} st
  = (Throw, st,
     [ZonesGet zone_id; DevicesList account_id]
       ++ map (lookup_call account_id api_token) (pre ++ [id])).
Proof.
  intros Z D K Hpre Hid. unfold scheduled. cbn [ACCOUNT_ID ZONE_ID API_TOKEN].
  apply (bind_run_ok _ _ st zone_name st [ZonesGet zone_id] Throw st
           (DevicesList account_id
              :: map (lookup_call account_id api_token) (pre ++ [id]))).
  { unfold get_zone_name, client_zones_get. now rewrite Z. }
  apply (bind_run_ok _ _ st (get_devices_of listed) st [DevicesList account_id]
           Throw st (map (lookup_call account_id api_token) (pre ++ [id]))).
  { unfold get_devices, bind, client_devices_list, ret. now rewrite D. }
  apply bind_throw. rewrite K. now apply find_ips_rejected.
Qed.

Lemma scheduled_aborts_on_rejected_lookup_witness :
  scheduled {| toLowerCase := JS.lower_ascii;
               zones_get := zones_get Demo.pair_world;
               devices_list := devices_list Demo.pair_world;
               fetch := fun url auth =>
                          if String.eqb url (warp_url "acct" "d2") then Throw
                          else fetch Demo.pair_world url auth;
               rejects := Demo.no_reject;
               new_id := new_id Demo.pair_world |}
            Demo.env Demo.stale_store
  = (Throw, Demo.stale_store,
     [ZonesGet "zone"; DevicesList "acct"]
       ++ map (lookup_call "acct" "token") (["d1"] ++ ["d2"])).
Proof.
  apply (scheduled_aborts_on_rejected_lookup _ "acct" "zone" "token" "example.com"
           Demo.pair ["d1"] [] "d2").
  - reflexivity.
  - reflexivity.
  - reflexivity.
  - intros k [<-|[]]. eexists. vm_compute. reflexivity.
  - vm_compute. reflexivity.
Defined.

(** X9. When the listing of the records is rejected, [scheduled] throws
    right after it: the calls are those of the inventory and the listing,
    none of them a create or an update, and the store is as it was. *)
Theorem scheduled_aborts_on_rejected_listing
        (w : World) (account_id zone_id api_token zone_name : string)
        (devices : Devices) (st s0 : Store) (t0 : list event) :
  inventory w account_id zone_id api_token st = (Ok (zone_name, devices), s0, t0) ->
  rejects w (RecordsList zone_id "A") = true ->
  scheduled w {| API_TOKEN := Some api_token; ACCOUNT_ID := Some account_id;
                 ZONE_ID := Some zone_id |} st
  = (Throw, st, t0 ++ [RecordsList zone_id "A"])
  /\ filter is_mutation (t0 ++ [RecordsList zone_id "A"]) = [].
Proof.
  intros Hinv Rej.
  destruct (asks_only_inventory w account_id zone_id api_token)
    as (r & t & Hask & Hquiet).
  pose proof Hinv as Hinv'. rewrite Hask in Hinv'. injection Hinv' as -> <- <-.
  split.
  - rewrite scheduled_inventory.
    apply (bind_run_ok _ _ _ _ _ _ _ _ _ Hinv). cbn [fst snd].
    apply bind_throw. rewrite get_dns_records_run, Rej. reflexivity.
  - rewrite filter_app, Hquiet. reflexivity.
Qed.

Lemma scheduled_aborts_on_rejected_listing_witness :
  let w := Demo.world Demo.pair Demo.pair_answers
             (fun e => match e with RecordsList _ _ => true | _ => false end) in
  let t0 := [ZonesGet "zone"; DevicesList "acct";
             lookup_call "acct" "token" "d1"; lookup_call "acct" "token" "d2"] in
  scheduled w Demo.env Demo.stale_store
  = (Throw, Demo.stale_store, t0 ++ [RecordsList "zone" "A"])
  /\ filter is_mutation (t0 ++ [RecordsList "zone" "A"]) = [].
Proof.
  intros w t0.
  apply (scheduled_aborts_on_rejected_listing w "acct" "zone" "token" "example.com"
           [("d1", Demo.device "Alpha" "10.0.0.1"); ("d2", Demo.device "beta" "10.0.0.2")]
           Demo.stale_store Demo.stale_store t0).
  - vm_compute. reflexivity.
  - reflexivity.
Defined.

(** ** The calls of a cycle *)

Lemma calls_of_bind {A B : Type} (m : M A) (f : A -> M B) s :
  calls_of (bind m f s)
  = calls_of (m s)
      ++ match outcome_of (m s) with
         | Ok a => calls_of (f a (store_of (m s)))
         | Throw => []
         end.
Proof.
  unfold bind, outcome_of, store_of, calls_of.
  destruct (m s) as [[[a|] s1] t1]; cbn [fst snd].
  - now destruct (f a s1) as [[r s2] t2].
  - now rewrite app_nil_r.
Qed.

(** The address check passes only for a valid address. *)
Lemma update_dns_record_calls (w : World) zone_id zone_name records device s :
  calls_of (update_dns_record w zone_id zone_name records device s) = []
  \/ exists e,
      calls_of (update_dns_record w zone_id zone_name records device s) = [e]
      /\ call_of_device w zone_id zone_name records device e.
Proof.
  unfold update_dns_record, call_of_device, valid_address.
  destruct (nullish_or (d_ip device) (Val (JStr ""))) as [|[| | |content| |]];
    try (now left).
  destruct (isIPv4 content) eqn:V; cbn [negb]; [|now left].
  destruct (entries_named _ records) as [|[id record] rest] eqn:E.
  - right. eexists. split; [apply calls_of_create|].
    exists content. split; [reflexivity|]. left. now split.
  - destruct (String.eqb (r_content record) content) eqn:C; cbn [negb];
      [now left|].
    right. eexists. split; [apply calls_of_update|].
    exists content. split; [reflexivity|]. right.
    exists id, record, rest. apply String.eqb_neq in C. now repeat split.
Qed.

Lemma loop_calls (w : World) zone_id zone_name records l :
  forall s,
    Forall (fun e => exists id d, In (id, d) l
                                  /\ call_of_device w zone_id zone_name records d e)
           (calls_of (update_dns_records_loop w zone_id zone_name records l s))
    /\ (length (calls_of (update_dns_records_loop w zone_id zone_name records l s))
        <= length l)%nat.
Proof.
  induction l as [|[id d] l IH]; intros s.
  - split; [constructor|apply le_n].
  - cbn [update_dns_records_loop]. rewrite calls_of_bind.
    assert (Rest : Forall (fun e => exists id0 d0, In (id0, d0) ((id, d) :: l)
                      /\ call_of_device w zone_id zone_name records d0 e)
              (match outcome_of (update_dns_record w zone_id zone_name records d s) with
               | Ok _ => calls_of (update_dns_records_loop w zone_id zone_name records l
                                     (store_of (update_dns_record w zone_id zone_name
                                                  records d s)))
               | Throw => []
               end)
            /\ (length (match outcome_of (update_dns_record w zone_id zone_name records d s) with
               | Ok _ => calls_of (update_dns_records_loop w zone_id zone_name records l
                                     (store_of (update_dns_record w zone_id zone_name
                                                  records d s)))
               | Throw => []
               end) <= length l)%nat).
    { destruct (outcome_of _).
      - destruct (IH (store_of (update_dns_record w zone_id zone_name records d s)))
          as [F L].
        split; [|exact L]. eapply Forall_impl; [|exact F].
        intros e (id0 & d0 & I & C). exists id0, d0. split; [now right|exact C].
      - split; [constructor|apply Nat.le_0_l]. }
    destruct Rest as [F L].
    destruct (update_dns_record_calls w zone_id zone_name records d s)
      as [E|(e & E & C)]; rewrite E.
    + split; [exact F|]. simpl. now apply Nat.le_le_succ_r.
    + split.
      * constructor; [|exact F]. exists id, d. split; [now left|exact C].
      * simpl. now apply le_n_S.
Qed.

Lemma call_of_device_mutation (w : World) zone_id zone_name records d e :
  call_of_device w zone_id zone_name records d e -> is_mutation e = true.
Proof.
  intros (c & _ & [[_ ->]|(k & r & rest & _ & _ & ->)]); reflexivity.
Qed.

Lemma loop_calls_mutations (w : World) zone_id zone_name records l s :
  forallb is_mutation
          (calls_of (update_dns_records_loop w zone_id zone_name records l s))
  = true.
Proof.
  apply forallb_forall. intros e I.
  destruct (loop_calls w zone_id zone_name records l s) as [F _].
  rewrite Forall_forall in F. destruct (F e I) as (id & d & _ & C).
  eapply call_of_device_mutation; eassumption.
Qed.

Lemma concat_no_calls {A : Type} (l : list A) :
  concat (map (fun _ => @nil event) l) = [].
Proof. induction l; simpl; auto. Qed.

Lemma device_part_nil (w : World) zone_id zone_name (l : list (string * Device)) :
  Forall2 (device_part w zone_id zone_name) l (map (fun _ => []) l).
Proof. induction l; simpl; constructor; auto. now left. Qed.

Lemma device_part_of_call (w : World) zone_id zone_name records id d e :
  call_of_device w zone_id zone_name records d e ->
  device_part w zone_id zone_name (id, d) [e].
Proof.
  intros (c & V & C). apply valid_address_some in V as [Hip Hok].
  right. exists e.
  destruct C as [[_ ->]|(k & r & rest & _ & _ & ->)];
    eexists; cbn [snd call_params mk_params p_name p_type p_zone_id
                      p_ttl p_content]; repeat split; auto.
Qed.

Lemma loop_parts (w : World) zone_id zone_name records l :
  forall s,
    exists parts,
      calls_of (update_dns_records_loop w zone_id zone_name records l s)
      = concat parts
      /\ Forall2 (device_part w zone_id zone_name) l parts.
Proof.
  induction l as [|[id d] l IH]; intros s.
  - exists []. split; [reflexivity|constructor].
  - cbn [update_dns_records_loop]. rewrite calls_of_bind.
    assert (Rest : exists parts,
               match outcome_of (update_dns_record w zone_id zone_name records d s) with
               | Ok _ => calls_of (update_dns_records_loop w zone_id zone_name records l
                                     (store_of (update_dns_record w zone_id zone_name
                                                  records d s)))
               | Throw => []
               end = concat parts
               /\ Forall2 (device_part w zone_id zone_name) l parts).
    { destruct (outcome_of _).
      - apply IH.
      - exists (map (fun _ => []) l). split.
        + now rewrite concat_no_calls.
        + apply device_part_nil. }
    destruct Rest as (parts & Ec & F). rewrite Ec.
    destruct (update_dns_record_calls w zone_id zone_name records d s)
      as [E|(e & E & C)]; rewrite E.
    + exists ([] :: parts). split; [reflexivity|].
      constructor; [now left|exact F].
    + exists ([e] :: parts). split; [reflexivity|].
      constructor; [|exact F].
      now apply (device_part_of_call w zone_id zone_name records).
Qed.

(** X10. The calls that [update_dns_records] makes split, in the order of
    the devices, into one part per device; the part of a device is empty or
    is one call, a create or an update with the record name of that device,
    type A, the given zone, a TTL of 300 and, as content, the address of
    that device, which is a valid IPv4 address. *)
Theorem update_dns_records_calls_are_valid
        (w : World) (zone_id zone_name : string) (records : Records)
        (devices : Devices) (st : Store) :
  exists parts,
    calls_of (update_dns_records w zone_id zone_name records devices st)
    = concat parts
    /\ Forall2 (device_part w zone_id zone_name) devices parts.
Proof.
  unfold update_dns_records, Obj.entries. apply loop_parts.
Qed.

(** X11. [update_dns_records] creates a record only for a name that the
    index it was given does not have, and updates only the first record
    that the index has for the name in the call, and only when the content
    of that record is not the content in the call: it never touches a
    record of another name and never rewrites a record with the content it
    has. *)
Theorem update_dns_records_calls_follow_index
        (w : World) (zone_id zone_name : string) (records : Records)
        (devices : Devices) (st : Store) (e : event) :
  In e (calls_of (update_dns_records w zone_id zone_name records devices st)) ->
  (forall p, e = RecordsCreate p -> entries_named (p_name p) records = [])
  /\ (forall k p, e = RecordsUpdate k p ->
                  exists record rest,
                    entries_named (p_name p) records = (k, record) :: rest
                    /\ r_content record <> p_content p).
Proof.
  unfold update_dns_records, Obj.entries. intros I.
  destruct (loop_calls w zone_id zone_name records devices st) as [F _].
  rewrite Forall_forall in F.
  destruct (F e I) as (id & d & _ & c & _ & C).
  destruct C as [[E ->]|(k & r & rest & E & D & ->)]; split.
  - intros p [= <-]. exact E.
  - intros k p [=].
  - intros p [=].
  - intros k' p [= <- <-]. exists r, rest. now split.
Qed.

Lemma update_dns_records_calls_follow_index_witness :
  (forall p, RecordsUpdate "r1" (mk_params "alpha.example.com" "zone" "10.0.0.1" 300)
             = RecordsCreate p ->
             entries_named (p_name p) (get_dns_records_of Demo.stale_store) = [])
  /\ (forall k p,
         RecordsUpdate "r1" (mk_params "alpha.example.com" "zone" "10.0.0.1" 300)
         = RecordsUpdate k p ->
         exists record rest,
           entries_named (p_name p) (get_dns_records_of Demo.stale_store)
           = (k, record) :: rest
           /\ r_content record <> p_content p).
Proof.
  apply (update_dns_records_calls_follow_index Demo.pair_world "zone"
           "example.com" (get_dns_records_of Demo.stale_store)
           [("d1", Demo.device "Alpha" "10.0.0.1");
            ("d2", Demo.device "beta" "10.0.0.2")]
           Demo.stale_store).
  vm_compute. left. reflexivity.
Defined.

(** ** The order of the calls *)

Lemma looks_up_only_ret {A : Type} (a : A) : looks_up_only (ret a).
Proof. exists (Ok a), []. split; reflexivity. Qed.

Lemma looks_up_only_bind {A B : Type} (m : M A) (f : A -> M B) :
  looks_up_only m -> (forall a, looks_up_only (f a)) -> looks_up_only (bind m f).
Proof.
  intros (r & t & Hm & Ht) Hf. destruct r as [a|].
  - destruct (Hf a) as (r2 & t2 & Hf2 & Ht2).
    exists r2, (t ++ t2). split.
    + intros s. unfold bind. now rewrite Hm, Hf2.
    + now rewrite forallb_app, Ht, Ht2.
  - exists Throw, t. split; [|exact Ht].
    intros s. unfold bind. now rewrite Hm.
Qed.

Lemma looks_up_only_find_ips (w : World) account_id api_token ids devices :
  looks_up_only (find_ips w account_id api_token ids devices).
Proof.
  revert devices. induction ids as [|id ids IH]; intros devices.
  - apply looks_up_only_ret.
  - cbn [find_ips]. apply looks_up_only_bind.
    + apply looks_up_only_bind.
      * exists (fetch w (warp_url account_id id) (bearer api_token)),
               [Fetch (warp_url account_id id) (bearer api_token)].
        split; reflexivity.
      * intros r. destruct (negb (status r =? 200)%N); [apply looks_up_only_ret|].
        destruct (get_ip_try r); apply looks_up_only_ret.
    + intros ip. destruct (is_null ip); apply IH.
Qed.

Lemma looks_up_only_inventory (w : World) account_id zone_id api_token :
  looks_up_only (inventory w account_id zone_id api_token).
Proof.
  unfold inventory. apply looks_up_only_bind.
  { exists (zones_get w zone_id), [ZonesGet zone_id]. split; reflexivity. }
  intros zn. apply looks_up_only_bind.
  { apply looks_up_only_bind.
    - exists (devices_list w account_id), [DevicesList account_id].
      split; reflexivity.
    - intros. apply looks_up_only_ret. }
  intros devs. apply looks_up_only_bind; [apply looks_up_only_find_ips|].
  intros. apply looks_up_only_ret.
Qed.

(** X12. The calls of [scheduled] come in three parts: first the lookups
    (zone, devices, addresses), then at most one listing of the A records
    of the zone, then creates and updates only. Without the listing there
    is no create and no update, and there is no lookup or listing after the
    first create or update: the decisions of a cycle are all taken on that
    one listing. *)
Theorem scheduled_call_order (w : World) (env : Env) (st : Store) :
  exists lookups listing writes,
    calls_of (scheduled w env st) = lookups ++ listing ++ writes
    /\ forallb is_lookup lookups = true
    /\ forallb is_mutation writes = true
    /\ ((listing = [] /\ writes = [])
        \/ exists zone_id, ZONE_ID env = Some zone_id
                           /\ listing = [RecordsList zone_id "A"]).
Proof.
  destruct env as [tok acc zone].
  destruct acc as [account_id|], zone as [zone_id|], tok as [api_token|];
    try (exists [], [], []; split; [reflexivity|]; split; [reflexivity|];
         split; [reflexivity|]; left; split; reflexivity).
  rewrite scheduled_inventory.
  destruct (looks_up_only_inventory w account_id zone_id api_token)
    as (r & t & Hinv & Hlook).
  rewrite calls_of_bind, Hinv. cbn [outcome_of store_of calls_of fst snd].
  destruct r as [[zn devs]|].
  - cbn [fst snd]. rewrite calls_of_bind, get_dns_records_run.
    cbn [outcome_of store_of calls_of fst snd].
    destruct (rejects w (RecordsList zone_id "A")).
    + exists t, [RecordsList zone_id "A"], [].
      split; [reflexivity|]. split; [exact Hlook|].
      split; [reflexivity|]. right. exists zone_id. auto.
    + exists t, [RecordsList zone_id "A"],
             (calls_of (update_dns_records w zone_id zn (get_dns_records_of st)
                          devs st)).
      split; [reflexivity|]. split; [exact Hlook|].
      split; [apply loop_calls_mutations|]. right. exists zone_id. auto.
  - exists t, [], [].
    split; [reflexivity|]. split; [exact Hlook|].
    split; [reflexivity|]. left. split; reflexivity.
Qed.

(** ** What a cycle leaves in the store *)

Lemma update_dns_record_store (w : World) zone_id zone_name records d c r c1 t :
  update_dns_record w zone_id zone_name records d c = (r, c1, t) ->
  c1 = c
  \/ (exists new content,
         c1 = c ++ [{| a_id := new;
                       a_name := record_name w (d_name d) zone_name;
                       a_content := Some content |}])
  \/ (exists id record rest content,
         valid_address d = Some content
         /\ entries_named (record_name w (d_name d) zone_name) records
            = (id, record) :: rest
         /\ c1 = map (fun a => if String.eqb (a_id a) id
                               then {| a_id := id;
                                       a_name := record_name w (d_name d) zone_name;
                                       a_content := Some content |}
                               else a) c).
Proof.
  unfold update_dns_record, valid_address.
  destruct (nullish_or (d_ip d) (Val (JStr ""))) as [|[| | |content| |]];
    try (intros [= _ <- _]; now left).
  destruct (isIPv4 content) eqn:V; cbn [negb]; [|intros [= _ <- _]; now left].
  destruct (entries_named _ records) as [|[id record] rest] eqn:E.
  - unfold bind, client_records_create, ret. destruct (rejects w _).
    + intros [= _ <- _]. now left.
    + intros [= _ <- _]. right. left. eauto.
  - destruct (negb (r_content record =? content)%string);
      [|intros [= _ <- _]; now left].
    unfold bind, client_records_update, ret. destruct (rejects w _ || _).
    + intros [= _ <- _]. now left.
    + intros [= _ <- _]. right. right. exists id, record, rest, content. auto.
Qed.

Lemma ids_inj (s : Store) (a b : ApiRecord) :
  NoDup (map a_id s) -> In a s -> In b s -> a_id a = a_id b -> a = b.
Proof.
  induction s as [|x s IH]; simpl; [tauto|].
  intros ND Ia Ib E. inversion ND as [|? ? N ND']; subst.
  destruct Ia as [->|Ia], Ib as [->|Ib]; auto.
  - exfalso. apply N. rewrite E. now apply in_map.
  - exfalso. apply N. rewrite <- E. now apply in_map.
Qed.

(** The first record that the index of a store has for a name is a
    record of the store with that identifier and that name. *)
Lemma first_entry_listed (s : Store) (n id : string) (record : DnsRecord)
      (rest : list (string * DnsRecord)) :
  entries_named n (get_dns_records_of s) = (id, record) :: rest ->
  exists a, In a s /\ a_id a = id /\ a_name a = n /\ record = record_of a.
Proof.
  intros E.
  assert (I : In (id, record) (entries_named n (get_dns_records_of s)))
    by (rewrite E; now left).
  apply entries_named_in in I as [I N].
  apply index_entry_listed in I as (a & Ia & Hid & ->).
  exists a. auto.
Qed.

Lemma loop_untargeted (w : World) zone_id zone_name (s : Store) (a : ApiRecord) l :
  NoDup (map a_id s) -> In a s ->
  ~ In (a_name a) (targets w zone_name l) ->
  forall c r s' t,
    update_dns_records_loop w zone_id zone_name (get_dns_records_of s) l c
    = (r, s', t) ->
    In a c -> In a s'.
Proof.
  intros ND Ia. induction l as [|[id d] l IH]; intros Nt c r s' t Hrun Ic.
  - simpl in Hrun. now injection Hrun as _ <- _.
  - cbn [update_dns_records_loop] in Hrun. unfold bind in Hrun.
    destruct (update_dns_record w zone_id zone_name (get_dns_records_of s) d c)
      as [[ro c1] t1] eqn:U.
    assert (Ic1 : In a c1).
    { destruct (update_dns_record_store _ _ _ _ _ _ _ _ _ U)
        as [->|[(new & content & ->)|(k & record & rest & content & V & E & ->)]].
      - exact Ic.
      - apply in_or_app. now left.
      - destruct (first_entry_listed s _ k record rest E) as (a0 & I0 & K & N & _).
        apply in_map_iff. exists a. split; [|exact Ic].
        destruct (String.eqb (a_id a) k) eqn:Q; [|reflexivity].
        apply String.eqb_eq in Q. exfalso. apply Nt.
        assert (a = a0) by (apply (ids_inj s); congruence). subst a0.
        cbn [targets]. rewrite V. left. now symmetry. }
    destruct ro as [o|].
    + destruct (update_dns_records_loop w zone_id zone_name (get_dns_records_of s) l c1)
        as [[r2 s2] t2] eqn:L.
      injection Hrun as _ <- _. apply (IH) with (c := c1) (r := r2) (t := t2); auto.
      intros I. apply Nt. cbn [targets]. destruct (valid_address d); [now right|exact I].
    + now injection Hrun as _ <- _.
Qed.

(** X13. A cycle of updates run on the index of a store whose records have
    identifiers of their own leaves every record whose name no device with
    a valid address asks for exactly as it was, whether the cycle goes
    through or throws on the way. *)
Theorem update_dns_records_leaves_other_names
        (w : World) (zone_id zone_name : string) (devices : Devices)
        (s s' : Store) (r : result unit) (t : list event) (a : ApiRecord) :
  NoDup (map a_id s) ->
  update_dns_records w zone_id zone_name (get_dns_records_of s) devices s
  = (r, s', t) ->
  In a s ->
  ~ In (a_name a) (targets w zone_name (Obj.entries devices)) ->
  In a s'.
Proof.
  intros ND Hrun Ia Nt. unfold update_dns_records in Hrun.
  now apply (loop_untargeted w zone_id zone_name s a (Obj.entries devices) ND Ia Nt
               s r s' t).
Qed.

Lemma update_dns_records_leaves_other_names_witness :
  let other := {| a_id := "r9"; a_name := "printer.example.com";
                  a_content := Some "10.9.9.9" |} in
  let devices := [("d1", Demo.device "Alpha" "10.0.0.1");
                  ("d2", Demo.device "beta" "10.0.0.2")] in
  let run := update_dns_records Demo.pair_world "zone" "example.com"
               (get_dns_records_of (Demo.stale_store ++ [other])) devices
               (Demo.stale_store ++ [other]) in
  In other (store_of run).
Proof.
  intros other devices run.
  apply (update_dns_records_leaves_other_names Demo.pair_world "zone" "example.com"
           devices (Demo.stale_store ++ [other]) (store_of run) (outcome_of run)
           (calls_of run) other).
  - simpl. repeat constructor; simpl; intuition discriminate.
  - apply run_eta.
  - simpl. right. now left.
  - simpl. intuition discriminate.
Defined.

Lemma pairs_same_name (c : Store) (id x y : string) :
  NoDup (map a_id c) ->
  In (id, x) (map (fun a => (a_id a, a_name a)) c) ->
  In (id, y) (map (fun a => (a_id a, a_name a)) c) ->
  x = y.
Proof.
  intros ND. apply (@keys_unique string (map (fun a => (a_id a, a_name a)) c)).
  unfold Obj.keys. rewrite map_map. exact ND.
Qed.

Lemma loop_pairs (w : World) zone_id zone_name (s : Store) l :
  forall c r s' t,
    update_dns_records_loop w zone_id zone_name (get_dns_records_of s) l c
    = (r, s', t) ->
    NoDup (map a_id s') ->
    (exists created, map (fun a => (a_id a, a_name a)) c
                     = map (fun a => (a_id a, a_name a)) s ++ created) ->
    exists created, map (fun a => (a_id a, a_name a)) s'
                    = map (fun a => (a_id a, a_name a)) s ++ created.
Proof.
  induction l as [|[id d] l IH]; intros c r s' t Hrun ND Hc.
  - simpl in Hrun. now injection Hrun as _ <- _.
  - cbn [update_dns_records_loop] in Hrun. unfold bind in Hrun.
    destruct (update_dns_record w zone_id zone_name (get_dns_records_of s) d c)
      as [[ro c1] t1] eqn:U.
    assert (Rest : exists more, map a_id s' = map a_id c1 ++ more).
    { destruct ro as [o|].
      - destruct (update_dns_records_loop w zone_id zone_name (get_dns_records_of s) l c1)
          as [[r2 s2] t2] eqn:L.
        injection Hrun as _ <- _. eapply loop_ids. exact L.
      - injection Hrun as _ <- _. exists []. now rewrite app_nil_r. }
    destruct Rest as [more Hmore].
    assert (ND1 : NoDup (map a_id c1)).
    { rewrite Hmore in ND. now apply NoDup_prefix in ND. }
    assert (Hc1 : exists created, map (fun a => (a_id a, a_name a)) c1
                     = map (fun a => (a_id a, a_name a)) s ++ created).
    { destruct Hc as [cr Hc].
      destruct (update_dns_record_store _ _ _ _ _ _ _ _ _ U)
        as [->|[(new & content & ->)|(k & record & rest & content & V & E & ->)]].
      - eauto.
      - rewrite map_app, Hc, <- app_assoc. eauto.
      - exists cr. rewrite <- Hc. rewrite map_map. apply map_ext_in.
        intros a Ia. destruct (String.eqb (a_id a) k) eqn:Q; [|reflexivity].
        apply String.eqb_eq in Q. cbn [a_id a_name].
        destruct (first_entry_listed s _ k record rest E) as (a0 & I0 & K & N & _).
        assert (NDc : NoDup (map a_id c)).
        { rewrite map_map in ND1.
          erewrite map_ext in ND1; [exact ND1|].
          intros x. cbn beta. destruct (String.eqb (a_id x) k) eqn:Qx; [|reflexivity].
          apply String.eqb_eq in Qx. now rewrite Qx. }
        f_equal; [now symmetry|].
        apply (pairs_same_name c k); [exact NDc| |].
        + rewrite Hc. apply in_or_app. left.
          apply in_map_iff. exists a0. split; [now rewrite K, N|exact I0].
        + apply in_map_iff. exists a. split; [now rewrite Q|exact Ia]. }
    destruct ro as [o|].
    + destruct (update_dns_records_loop w zone_id zone_name (get_dns_records_of s) l c1)
        as [[r2 s2] t2] eqn:L.
      injection Hrun as _ <- _. now apply (IH c1 r2 s2 t2).
    + now injection Hrun as _ <- _.
Qed.

(** X14. A cycle of updates run on the index of a store removes no record
    and renames none: when the records of the store it leaves have
    identifiers of their own, their identifiers and names are those of the
    store it started from, in the same order, followed by those of the
    records it created. *)
Theorem update_dns_records_keeps_names
        (w : World) (zone_id zone_name : string) (devices : Devices)
        (s s' : Store) (r : result unit) (t : list event) :
  update_dns_records w zone_id zone_name (get_dns_records_of s) devices s
  = (r, s', t) ->
  NoDup (map a_id s') ->
  exists created,
    map (fun a => (a_id a, a_name a)) s'
    = map (fun a => (a_id a, a_name a)) s ++ created.
Proof.
  intros Hrun ND. unfold update_dns_records in Hrun.
  apply (loop_pairs w zone_id zone_name s (Obj.entries devices) s r s' t Hrun ND).
  exists []. now rewrite app_nil_r.
Qed.

Lemma update_dns_records_keeps_names_witness :
  let devices := [("d1", Demo.device "Alpha" "10.0.0.1");
                  ("d2", Demo.device "beta" "10.0.0.2")] in
  let run := update_dns_records Demo.pair_world "zone" "example.com"
               (get_dns_records_of Demo.stale_store) devices Demo.stale_store in
  exists created,
    map (fun a => (a_id a, a_name a)) (store_of run)
    = map (fun a => (a_id a, a_name a)) Demo.stale_store ++ created.
Proof.
  intros devices run.
  apply (update_dns_records_keeps_names Demo.pair_world "zone" "example.com"
           devices Demo.stale_store (store_of run) (outcome_of run) (calls_of run)).
  - apply run_eta.
  - vm_compute. repeat constructor; simpl; intuition discriminate.
Defined.

(** ** The zone after a cycle *)

(** X15. After a cycle that goes through, in which the devices with a
    valid address ask for pairwise different record names and the records
    of the store have identifiers of their own, the store holds, for every
    device with a valid address, a record with the name of that device and
    its address as content. *)
Theorem scheduled_reaches_addresses
        (w : World) (account_id zone_id api_token zone_name : string)
        (devices : Devices) (s s0 s1 : Store) (t0 t1 : list event) :
  inventory w account_id zone_id api_token s = (Ok (zone_name, devices), s0, t0) ->
  NoDup (targets w zone_name (Obj.entries devices)) ->
  scheduled w {| API_TOKEN := Some api_token; ACCOUNT_ID := Some account_id;
                 ZONE_ID := Some zone_id |} s = (Ok tt, s1, t1) ->
  NoDup (map a_id s1) ->
  forall id d c,
    In (id, d) devices -> valid_address d = Some c ->
    exists a, In a s1
              /\ a_name a = record_name w (d_name d) zone_name
              /\ a_content a = Some c.
Proof.
  intros Hinv Hnames Hrun ND id d c Id V.
  destruct (asks_only_inventory w account_id zone_id api_token)
    as (r & t & Hask & _).
  rewrite Hask in Hinv. injection Hinv as -> _ _.
  rewrite scheduled_inventory in Hrun.
  apply bind_ok_inv in Hrun as (zd & sa & ta & tb & Hi & Hrest & _).
  rewrite Hask in Hi. injection Hi as <- <- _. cbn [fst snd] in Hrest.
  apply bind_ok_inv in Hrest as (records & sb & tc & td & Hrec & Hupd & _).
  rewrite get_dns_records_run in Hrec.
  destruct (rejects w (RecordsList zone_id "A")); [discriminate|].
  injection Hrec as <- <- _.
  unfold update_dns_records in Hupd.
  destruct (loop_converges w zone_id zone_name (get_dns_records_of s)
              (Obj.entries devices) s s1 td Hnames (fun _ _ => eq_refl) Hupd ND)
    as [Hconv _].
  destruct (Hconv id d c Id V) as (k & record & rest & E & C).
  destruct (first_entry_listed s1 _ k record rest E) as (a & Ia & _ & N & ->).
  exists a. split; [exact Ia|]. split; [exact N|].
  apply valid_address_some in V as [_ Hok].
  unfold record_of in C. cbn [r_content] in C.
  destruct (a_content a) as [x|]; [now rewrite C|].
  exfalso. now apply (isIPv4_nonempty c Hok).
Qed.

Lemma scheduled_reaches_addresses_witness :
  let s1 := store_of (scheduled Demo.pair_world Demo.env Demo.stale_store) in
  exists a, In a s1
            /\ a_name a = record_name Demo.pair_world "beta" "example.com"
            /\ a_content a = Some "10.0.0.2".
Proof.
  intros s1.
  apply (scheduled_reaches_addresses Demo.pair_world "acct" "zone" "token"
           "example.com"
           [("d1", Demo.device "Alpha" "10.0.0.1");
            ("d2", Demo.device "beta" "10.0.0.2")]
           Demo.stale_store Demo.stale_store s1
           [ZonesGet "zone"; DevicesList "acct";
            lookup_call "acct" "token" "d1"; lookup_call "acct" "token" "d2"]
           (calls_of (scheduled Demo.pair_world Demo.env Demo.stale_store)))
    with (id := "d2") (d := Demo.device "beta" "10.0.0.2").
  - vm_compute. reflexivity.
  - vm_compute. repeat constructor; simpl; intuition discriminate.
  - vm_compute. reflexivity.
  - vm_compute. repeat constructor; simpl; intuition discriminate.
  - right. left. reflexivity.
  - reflexivity.
Defined.

(** ** A cycle in which no address is known *)

Lemma set_ip_nullish (id : string) (ip : jsval) (devices : Devices) :
  nullish ip ->
  (forall e, In e devices -> nullish (d_ip (snd e))) ->
  forall e, In e (set_ip id ip devices) -> nullish (d_ip (snd e)).
Proof.
  intros Hip H e I. unfold set_ip in I. apply in_map_iff in I as ([k d] & <- & I).
  simpl. destruct (String.eqb k id); [exact Hip|]. exact (H _ I).
Qed.

Lemma find_ips_unknown (w : World) account_id api_token (ids : list string) :
  (forall k, In k ids ->
             exists r, fetch w (warp_url account_id k) (bearer api_token) = Ok r
                       /\ address_unknown r) ->
  forall devices st,
    (forall e, In e devices -> nullish (d_ip (snd e))) ->
    exists devices',
      find_ips w account_id api_token ids devices st
      = (Ok devices', st, map (lookup_call account_id api_token) ids)
      /\ (forall e, In e devices' -> nullish (d_ip (snd e))).
Proof.
  induction ids as [|id ids IH]; intros Hids devices st Hd.
  - exists devices. split; [reflexivity|exact Hd].
  - destruct (Hids id (or_introl eq_refl)) as (r & F & U).
    destruct (get_ip_unknown w account_id id api_token r st F U) as (ip & G & Nu).
    assert (Hids' : forall k, In k ids ->
               exists r, fetch w (warp_url account_id k) (bearer api_token) = Ok r
                         /\ address_unknown r)
      by (intros k I; apply Hids; now right).
    cbn [find_ips map]. unfold bind. rewrite G. destruct (is_null ip).
    + destruct (IH Hids' devices st Hd) as (devices' & R & Hd').
      exists devices'. split; [|exact Hd']. now rewrite R.
    + destruct (IH Hids' (set_ip id ip devices) st
                   (set_ip_nullish id ip devices Nu Hd)) as (devices' & R & Hd').
      exists devices'. split; [|exact Hd']. now rewrite R.
Qed.

Lemma nullish_no_address (d : Device) :
  nullish (d_ip d) ->
  nullish_or (d_ip d) (Val (JStr "")) = Val (JStr "") /\ valid_address d = None.
Proof.
  unfold valid_address. intros [E|E]; rewrite E; split; reflexivity.
Qed.

(** X16. When the zone lookup and the listings succeed and every address
    lookup comes back without an address (a status other than 200, a
    success flag that is not true, no address field, an empty or missing
    metadata block), the cycle goes through with the lookups and the
    listing of the records as its only calls: it creates and updates
    nothing and the store is as it was. *)
Theorem scheduled_without_addresses
        (w : World) (account_id zone_id api_token zone_name : string)
        (listed : list DeviceObs) (st : Store) :
  zones_get w zone_id = Ok zone_name ->
  devices_list w account_id = Ok listed ->
  (forall id, In id (map obs_id listed) ->
              exists r, fetch w (warp_url account_id id) (bearer api_token) = Ok r
                        /\ address_unknown r) ->
  rejects w (RecordsList zone_id "A") = false ->
  scheduled w {| API_TOKEN := Some api_token; ACCOUNT_ID := Some account_id;
                 ZONE_ID := Some zone_id |} st
  = (Ok tt, st,
     [ZonesGet zone_id; DevicesList account_id]
       ++ map (lookup_call account_id api_token) (Obj.keys (get_devices_of listed))
       ++ [RecordsList zone_id "A"]).
Proof.
  intros Z D Hfetch Rej. unfold scheduled. cbn [ACCOUNT_ID ZONE_ID API_TOKEN].
  destruct (find_ips_unknown w account_id api_token
              (Obj.keys (get_devices_of listed))) with
      (devices := get_devices_of listed) (st := st) as (devices' & R & Hd').
  { intros k I. apply Hfetch. now apply get_devices_keys_listed. }
  { intros [k d] I. apply entries_are_listed in I as (o & _ & _ & ->).
    now left. }
  apply (bind_run_ok _ _ st zone_name st [ZonesGet zone_id] (Ok tt) st
           (DevicesList account_id
              :: map (lookup_call account_id api_token)
                     (Obj.keys (get_devices_of listed))
              ++ [RecordsList zone_id "A"])).
  { unfold get_zone_name, client_zones_get. now rewrite Z. }
  apply (bind_run_ok _ _ st (get_devices_of listed) st [DevicesList account_id]
           (Ok tt) st
           (map (lookup_call account_id api_token)
                (Obj.keys (get_devices_of listed))
              ++ [RecordsList zone_id "A"])).
  { unfold get_devices, bind, client_devices_list, ret. now rewrite D. }
  apply (bind_run_ok _ _ _ _ _ _ _ _ _ R).
  apply (bind_run_ok _ _ st (get_dns_records_of st) st [RecordsList zone_id "A"]
           (Ok tt) st []).
  { rewrite get_dns_records_run, Rej. reflexivity. }
  unfold update_dns_records. apply loop_quiet.
  - intros id d I. exists "". now apply nullish_no_address, (Hd' (id, d)).
  - intros id d c I V.
    destruct (nullish_no_address d (Hd' (id, d) I)) as [_ N]. congruence.
Qed.

Lemma scheduled_without_addresses_witness :
  scheduled (Demo.world Demo.pair [("d1", Demo.empty_metadata_response)]
                        Demo.no_reject)
            Demo.env Demo.stale_store
  = (Ok tt, Demo.stale_store,
     [ZonesGet "zone"; DevicesList "acct"]
       ++ map (lookup_call "acct" "token") (Obj.keys (get_devices_of Demo.pair))
       ++ [RecordsList "zone" "A"]).
Proof.
  apply (scheduled_without_addresses _ "acct" "zone" "token" "example.com" Demo.pair).
  - reflexivity.
  - reflexivity.
  - intros id [<-|[<-|[]]].
    + exists Demo.empty_metadata_response. split; [reflexivity|].
      right. right. right. left.
      exists (JObj [("success", JBool true);
                    ("result", JObj [("metadata", JObj [])])]),
             (Val (JObj [("metadata", JObj [])])).
      split; [reflexivity | split; reflexivity].
    + exists {| status := 404; json_body := Throw |}. split; [reflexivity|].
      left. discriminate.
  - reflexivity.
Defined.

(** ** The form of an accepted address *)

Lemma string_length_app (a b : string) :
  String.length (a ++ b)%string = (String.length a + String.length b)%nat.
Proof. induction a as [|c a IH]; simpl; [reflexivity|now rewrite IH]. Qed.

Lemma string_forall_app (f : ascii -> bool) (a b : string) :
  string_forall f (a ++ b)%string = string_forall f a && string_forall f b.
Proof.
  induction a as [|c a IH]; simpl; [reflexivity|].
  now rewrite IH, andb_assoc.
Qed.

Lemma all_digits_digit_or_dot (s : string) :
  JS.all_digits s = true -> string_forall digit_or_dot s = true.
Proof.
  induction s as [|c s IH]; simpl; [reflexivity|].
  intros H. apply andb_true_iff in H as [Hc Hs].
  rewrite (IH Hs). unfold digit_or_dot. now rewrite Hc.
Qed.

Lemma octet_lengths_checked :
  forallb octet_length_check (map N.of_nat (seq 0 256)) = true.
Proof. vm_compute. reflexivity. Qed.

Lemma octet_shape (n : N) :
  (n <= 255)%N ->
  (1 <= String.length (JS.String_of n) <= 3)%nat
  /\ string_forall digit_or_dot (JS.String_of n) = true.
Proof.
  intros H.
  assert (Hin : In n (map N.of_nat (seq 0 256))).
  { rewrite <- (N2Nat.id n). apply in_map. apply in_seq. lia. }
  pose proof (proj1 (forallb_forall _ _) octet_lengths_checked n Hin) as C.
  unfold octet_length_check in C. apply andb_true_iff in C as [C1 C2].
  apply Nat.leb_le in C1, C2. split; [lia|].
  apply all_digits_digit_or_dot.
  destruct (octet_ok n H) as [D _].
  destruct (JS.String_of n); [discriminate D|exact D].
Qed.

(** X17. A string that [isIPv4] accepts has between 7 and 15 characters,
    each of them a digit or a dot: no sign, no space, no colon, no
    letter. *)
Theorem isIPv4_accepts_digits_and_dots (s : string) :
  isIPv4 s = true ->
  (7 <= String.length s <= 15)%nat /\ string_forall digit_or_dot s = true.
Proof.
  intros H. apply isIPv4_iff in H as (a & b & c & d & Ha & Hb & Hc & Hd & ->).
  destruct (octet_shape a Ha) as [La Fa], (octet_shape b Hb) as [Lb Fb],
           (octet_shape c Hc) as [Lc Fc], (octet_shape d Hd) as [Ld Fd].
  rewrite !string_length_app, !string_forall_app, Fa, Fb, Fc, Fd.
  cbn [String.length string_forall]. split; [lia|reflexivity].
Qed.

Lemma isIPv4_accepts_digits_and_dots_witness :
  (7 <= String.length "100.96.0.12" <= 15)%nat
  /\ string_forall digit_or_dot "100.96.0.12" = true.
Proof. apply isIPv4_accepts_digits_and_dots. reflexivity. Defined.

(** ** An address that is not a string *)

(** X19. When a device holds an address that is neither null nor a string
    (a number, a boolean, an array or an object read from the lookup),
    [update_dns_record] throws at the address check without a call, and
    [update_dns_records] stops there: the calls and the store are those of
    the devices before it, and no device after it is looked at. *)
Theorem update_dns_records_stops_at_bad_address
        (w : World) (zone_id zone_name : string) (records : Records)
        (pre post : list (string * Device)) (id : string) (device : Device)
        (j : json) (st s1 : Store) (t1 : list event) :
  update_dns_records w zone_id zone_name records pre st = (Ok tt, s1, t1) ->
  d_ip device = Val j ->
  j <> JNull ->
  (forall s, j <> JStr s) ->
  update_dns_records w zone_id zone_name records (pre ++ (id, device) :: post) st
  = (Throw, s1, t1).
Proof.
  unfold update_dns_records, Obj.entries. intros Hpre Hip Hnull Hstr.
  rewrite loop_app. unfold bind at 1. rewrite Hpre.
  cbn [update_dns_records_loop]. unfold bind, update_dns_record. rewrite Hip.
  destruct j as [|b|x|x|l|m]; cbn [nullish_or]; unfold throw;
    try (now rewrite app_nil_r).
  - congruence.
  - exfalso. now apply (Hstr x).
Qed.

Lemma update_dns_records_stops_at_bad_address_witness :
  update_dns_records Demo.pair_world "zone" "example.com" []
    ([("d1", Demo.device "Alpha" "10.0.0.1")]
       ++ ("d2", {| d_name := "beta"; d_updated := Time 1; d_ip := Val (JNum "7") |})
       :: [("d3", Demo.device "gamma" "10.0.0.3")]) []
  = (Throw,
     [{| a_id := "new-0"; a_name := "alpha.example.com"; a_content := Some "10.0.0.1" |}],
     [RecordsCreate (mk_params "alpha.example.com" "zone" "10.0.0.1" 300)]).
Proof.
  apply (update_dns_records_stops_at_bad_address Demo.pair_world "zone"
           "example.com" [] [("d1", Demo.device "Alpha" "10.0.0.1")]
           [("d3", Demo.device "gamma" "10.0.0.3")] "d2" _ (JNum "7")).
  - reflexivity.
  - reflexivity.
  - discriminate.
  - discriminate.
Defined.

(** ** A lookup without an address, in the loop of the lookups *)

Lemma find_ips_keeps_unknown (w : World) account_id api_token (k : string)
      (r : Response) :
  fetch w (warp_url account_id k) (bearer api_token) = Ok r ->
  address_unknown r ->
  forall ids devices devices' st st' t,
    find_ips w account_id api_token ids devices st = (Ok devices', st', t) ->
    (forall d, In (k, d) devices -> nullish (d_ip d)) ->
    forall d', In (k, d') devices' -> nullish (d_ip d').
Proof.
  intros F U. induction ids as [|id ids IH]; intros devices devices' st st' t H Hd.
  - simpl in H. injection H as <- _ _. exact Hd.
  - cbn [find_ips] in H.
    apply bind_ok_inv in H as (ip & s1 & t1 & t2 & G & K & _).
    destruct (is_null ip); [now apply (IH _ _ _ _ _ K)|].
    apply (IH _ _ _ _ _ K). intros d I.
    unfold set_ip in I. apply in_map_iff in I as ([k0 d0] & E & I0).
    cbn [fst snd] in E. destruct (String.eqb k0 id) eqn:Q.
    + apply String.eqb_eq in Q. injection E as -> <-. subst id. cbn [d_ip].
      destruct (get_ip_unknown w account_id k api_token r st F U) as (ip' & G' & Nu).
      rewrite G' in G. now injection G as <- _ _.
    + injection E as -> ->. now apply Hd.
Qed.

(** C6 as stated fails on its last clause: for a device whose lookup comes
    back with an empty metadata block, [update_dns_record] returns at the
    address check, before the line that reports an outcome: nothing is
    written for the device, the word "skipped" no more than another. *)
Lemma unknown_address_reports_nothing :
  let w := Demo.world Demo.pair [("d1", Demo.empty_metadata_response)]
                      Demo.no_reject in
  let devices := get_devices_of Demo.pair in
  let looked := find_ips w "acct" "token" (Obj.keys devices) devices [] in
  exists devices' d',
    outcome_of looked = Ok devices'
    /\ Obj.get "d1" devices' = Some d'
    /\ let run := update_dns_record w "zone" "example.com" [] d' [] in
       calls_of run = []
       /\ logged_line (record_name w (d_name d') "example.com") (outcome_of run)
          = None
       /\ logged_line (record_name w (d_name d') "example.com") (outcome_of run)
          <> Some "DNS Record for alpha.example.com skipped".
Proof.
  intros w devices looked.
  exists [("d1", {| d_name := "Alpha"; d_updated := Time 1; d_ip := Undefined |});
          ("d2", {| d_name := "beta"; d_updated := Time 1; d_ip := Val JNull |})],
         {| d_name := "Alpha"; d_updated := Time 1; d_ip := Undefined |}.
  split; [vm_compute; reflexivity|]. split; [vm_compute; reflexivity|].
  split; [vm_compute; reflexivity|]. split; [vm_compute; reflexivity|].
  vm_compute. discriminate.
Qed.

(** C6, as the code has it. When the address lookup of a device answers
    with a status other than 200, a success flag that is not true, no
    address field, or an empty (or missing) metadata block, [get_ip]
    returns, without throwing, an address that is null or undefined. When
    the loop of the lookups of [scheduled] returns, that device, in a
    mapping of any size, is left without an address; [update_dns_record]
    then issues no call for it, leaves the store as it is, and returns at
    the address check without writing an outcome to the console. *)
Theorem unknown_address_makes_no_call
        (w : World) (account_id api_token id : string) (r : Response)
        (ids : list string) (devices devices' : Devices)
        (st st' : Store) (t : list event) :
  fetch w (warp_url account_id id) (bearer api_token) = Ok r ->
  address_unknown r ->
  (forall d, In (id, d) devices -> d_ip d = Val JNull) ->
  find_ips w account_id api_token ids devices st = (Ok devices', st', t) ->
  (exists ip,
      get_ip w account_id id api_token st
      = (Ok ip, st, [Fetch (warp_url account_id id) (bearer api_token)])
      /\ nullish ip)
  /\ forall d' zone_id zone_name records s,
      In (id, d') devices' ->
      nullish (d_ip d')
      /\ update_dns_record w zone_id zone_name records d' s = (Ok Skipped, s, [])
      /\ logged_line (record_name w (d_name d') zone_name)
                     (outcome_of (update_dns_record w zone_id zone_name records d' s))
         = None.
Proof.
  intros F U Hnull Hrun. split.
  - exact (get_ip_unknown w account_id id api_token r st F U).
  - intros d' zone_id zone_name records s I.
    assert (Nu : nullish (d_ip d')).
    { apply (find_ips_keeps_unknown w account_id api_token id r F U
               ids devices devices' st st' t Hrun); [|exact I].
      intros d Id. left. now apply Hnull. }
    assert (R : update_dns_record w zone_id zone_name records d' s
                = (Ok Skipped, s, [])).
    { apply update_dns_record_invalid with (content := "").
      - destruct Nu as [E | E]; rewrite E; reflexivity.
      - reflexivity. }
    split; [exact Nu|]. split; [exact R|]. now rewrite R.
Qed.

Lemma unknown_address_makes_no_call_witness :
  let w := Demo.world Demo.pair [("d1", Demo.empty_metadata_response);
                                 ("d2", Demo.ip_response "10.0.0.2")]
                      Demo.no_reject in
  let d' := {| d_name := "Alpha"; d_updated := Time 1; d_ip := Undefined |} in
  (exists ip,
      get_ip w "acct" "d1" "token" Demo.stale_store
      = (Ok ip, Demo.stale_store, [Fetch (warp_url "acct" "d1") (bearer "token")])
      /\ nullish ip)
  /\ nullish (d_ip d')
  /\ update_dns_record w "zone" "example.com"
       (get_dns_records_of Demo.stale_store) d' Demo.stale_store
     = (Ok Skipped, Demo.stale_store, [])
  /\ logged_line (record_name w (d_name d') "example.com")
       (outcome_of (update_dns_record w "zone" "example.com"
                      (get_dns_records_of Demo.stale_store) d' Demo.stale_store))
     = None.
Proof.
  intros w d'.
  destruct (unknown_address_makes_no_call w "acct" "token" "d1"
              Demo.empty_metadata_response ["d1"; "d2"]
              (get_devices_of Demo.pair)
              [("d1", d'); ("d2", Demo.device "beta" "10.0.0.2")]
              Demo.stale_store Demo.stale_store
              [Fetch (warp_url "acct" "d1") (bearer "token");
               Fetch (warp_url "acct" "d2") (bearer "token")])
    as [A B].
  - reflexivity.
  - right. right. right. left.
    exists (JObj [("success", JBool true);
                  ("result", JObj [("metadata", JObj [])])]),
           (Val (JObj [("metadata", JObj [])])).
    split; [reflexivity | split; reflexivity].
  - intros d I. vm_compute in I.
    destruct I as [E|[E|[]]]; [injection E as <-; reflexivity|discriminate E].
  - vm_compute. reflexivity.
  - split; [exact A|].
    apply (B d' "zone" "example.com" (get_dns_records_of Demo.stale_store)
             Demo.stale_store).
    left. reflexivity.
Defined.

(** ** A record without content *)

(** C10 as stated fails: when a record with content comes before a record
    without content of the same name, the first one decides; a device whose
    address it already has is untouched and issues no update. *)
Lemma record_without_content_is_not_consulted :
  let listed := [ {| a_id := "r0"; a_name := "alpha.example.com";
                     a_content := Some "10.0.0.1" |};
                  {| a_id := "r1"; a_name := "alpha.example.com";
                     a_content := None |} ] in
  Obj.get "r1" (get_dns_records_of listed)
  = Some {| r_name := "alpha.example.com"; r_content := "" |}
  /\ update_dns_record Demo.pair_world "zone" "example.com"
       (get_dns_records_of listed) (Demo.device "Alpha" "10.0.0.1") listed
     = (Ok Untouched, listed, []).
Proof. split; vm_compute; reflexivity. Qed.

(** C10, as the code has it. When the listed A records have identifiers of
    their own, a record listed without content is in the index that
    [get_dns_records] builds with the empty string as content; no valid
    address is the empty string; so a device with a valid address for which
    that record is the first of its name in the index issues one update,
    for that record, and is not reported as untouched. *)
Theorem missing_content_first_forces_update :
  (forall (listed : list ApiRecord) (a : ApiRecord),
      NoDup (map a_id listed) -> In a listed -> a_content a = None ->
      Obj.get (a_id a) (get_dns_records_of listed)
      = Some {| r_name := a_name a; r_content := "" |})
  /\
  (forall content, isIPv4 content = true -> content <> "")
  /\
  (forall (w : World) zone_id zone_name (listed : list ApiRecord) (a : ApiRecord)
          (device : Device) content record rest st,
      NoDup (map a_id listed) -> In a listed -> a_content a = None ->
      d_ip device = Val (JStr content) ->
      isIPv4 content = true ->
      entries_named (record_name w (d_name device) zone_name)
                    (get_dns_records_of listed)
        = (a_id a, record) :: rest ->
      let run := update_dns_record w zone_id zone_name
                   (get_dns_records_of listed) device st in
      calls_of run
      = [RecordsUpdate (a_id a)
           (mk_params (record_name w (d_name device) zone_name)
                      zone_id content 300)]
      /\ outcome_of run <> Ok Untouched).
Proof.
  assert (Entry : forall (listed : list ApiRecord) (a : ApiRecord),
             NoDup (map a_id listed) -> In a listed -> a_content a = None ->
             In (a_id a, {| r_name := a_name a; r_content := "" |})
                (get_dns_records_of listed)).
  { intros listed a ND I C.
    pose proof (index_entry_of_listed listed a ND I) as H.
    unfold record_of in H. now rewrite C in H. }
  split; [|split].
  - intros listed a ND I C. apply get_in; [apply index_NoDup|].
    now apply Entry.
  - exact isIPv4_nonempty.
  - intros w zone_id zone_name listed a device content record rest st
           ND I C Hc Hv He run. subst run.
    assert (Hr : record = {| r_name := a_name a; r_content := "" |}).
    { apply (keys_unique (get_dns_records_of listed) (a_id a));
        [apply index_NoDup| |now apply Entry].
      apply (entries_named_in (record_name w (d_name device) zone_name)).
      rewrite He. now left. }
    rewrite (update_dns_record_found w zone_id zone_name _ device content
               (a_id a) record rest st Hc Hv He).
    assert (D : (r_content record =? content)%string = false).
    { apply String.eqb_neq. rewrite Hr. cbn [r_content]. intros E.
      symmetry in E. now apply (isIPv4_nonempty content Hv). }
    rewrite D. cbn [negb]. split.
    + apply calls_of_update.
    + unfold bind, client_records_update.
      destruct (rejects w _ || _); discriminate.
Qed.

Lemma missing_content_first_forces_update_witness :
  let listed := [ {| a_id := "r1"; a_name := "alpha.example.com";
                     a_content := None |};
                  {| a_id := "r0"; a_name := "alpha.example.com";
                     a_content := Some "10.0.0.1" |} ] in
  let run := update_dns_record Demo.pair_world "zone" "example.com"
               (get_dns_records_of listed) (Demo.device "Alpha" "10.0.0.1")
               listed in
  Obj.get "r1" (get_dns_records_of listed)
  = Some {| r_name := "alpha.example.com"; r_content := "" |}
  /\ "10.0.0.1" <> ""
  /\ calls_of run
     = [RecordsUpdate "r1"
          (mk_params (record_name Demo.pair_world "Alpha" "example.com")
                     "zone" "10.0.0.1" 300)]
  /\ outcome_of run <> Ok Untouched.
Proof.
  intros listed run.
  destruct missing_content_first_forces_update as (A & B & C).
  assert (ND : NoDup (map a_id listed)).
  { simpl. repeat constructor; simpl; intuition discriminate. }
  split; [|split].
  - exact (A listed {| a_id := "r1"; a_name := "alpha.example.com";
                       a_content := None |} ND (or_introl eq_refl) eq_refl).
  - exact (B "10.0.0.1" eq_refl).
  - exact (C Demo.pair_world "zone" "example.com" listed
             {| a_id := "r1"; a_name := "alpha.example.com"; a_content := None |}
             (Demo.device "Alpha" "10.0.0.1") "10.0.0.1"
             {| r_name := "alpha.example.com"; r_content := "" |}
             [("r0", {| r_name := "alpha.example.com"; r_content := "10.0.0.1" |})]
             listed ND (or_introl eq_refl) eq_refl eq_refl eq_refl eq_refl).
Defined.
